(** * pktdump: the packet pipeline (pkt_pipeline.h, pkt_pipeline.c,
      pkt_inputfile.c, pktdump.c)

    A shallow embedding of the pipeline registry, the per-frame stage loop,
    the file-replay capture adapter and the shutdown path of [main],
    followed by the properties proved about them. *)

From Stdlib Require Import ZArith Lia Strings.Byte.
From stdpp Require Import base numbers option list gmap strings.

Local Open Scope Z_scope.

(** ** Machine integers *)

(** [unsigned int], [__u32] and [bpf_u_int32] hold values in [0, 2^32);
    a conversion from a wider or a signed type reduces modulo 2^32. *)
Definition to_u32 (z : Z) : Z := z mod 2 ^ 32.

(** The range of a C [int]. *)
Definition is_int (z : Z) : Prop := - 2 ^ 31 <= z < 2 ^ 31.

(** ** Data model (pkt_pipeline.h) *)

Definition PKT_PIPELINE_MAX : Z := 8.

(** Addresses of heap blocks, of static [pkt_pipeline_stage] objects and of
    open [pcap_t] handles.  A C pointer is an [option] of these: [None] is
    [NULL]. *)
Definition addr := Z.
Definition stage_ref := nat.
Definition handle := Z.

(** [struct tpacket3_hdr] of <linux/if_packet.h>: the fields the adapter
    writes, all [__u32] but [tp_mac] and [tp_net], which are [__u16]. *)
Record tpacket3_hdr := {
  tp_next_offset : Z;
  tp_sec : Z;
  tp_nsec : Z;
  tp_snaplen : Z;
  tp_len : Z;
  tp_status : Z;
  tp_mac : Z;
  tp_net : Z
}.

Definition TP_STATUS_USER : Z := 1.

(** The local [buffer1] of [pktdump_process_one]: the header overlaid at its
    start and the bytes stored from [PAYLOAD_OFFSET] on.  Bytes that were
    never written are indeterminate and have no entry in [cb_payload]. *)
Definition PAYLOAD_OFFSET : Z := 2048.
Definition CAPLEN_MAX : Z := 65536.
Definition BUFFER1_SIZE : Z := 65536 + 2048.

Record capture_buffer := {
  cb_hdr : tpacket3_hdr;
  cb_payload : list byte
}.

(** The byte at offset [off] of the buffer, when it has been written. *)
Definition buffer_at (b : capture_buffer) (off : Z) : option byte :=
  if PAYLOAD_OFFSET <=? off
  then cb_payload b !! Z.to_nat (off - PAYLOAD_OFFSET)
  else None.

(** What a stage sees of a frame, read as pkt_hexdumpc_process does: the
    [tp_snaplen] bytes that start [tp_mac] bytes after the header. *)
Definition exposed_bytes (b : capture_buffer) : list (option byte) :=
  (λ k, buffer_at b (tp_mac (cb_hdr b) + k)) <$>
    seqZ 0 (tp_snaplen (cb_hdr b)).

(** [pkt_pipeline_hdr]: a scratch slot is [None] while it is uninitialised
    (the descriptor is a local that is never cleared). *)
Record pkt_pipeline_hdr := {
  pkt_pipeline_hdr_ : capture_buffer;
  pkt_pipeline_extra : list (option (option addr))
}.

(** [pkt_pipeline_list]: [None] in [pkt_list] is the NULL of a claimed
    packet. *)
Record pkt_pipeline_list := {
  pkt_list : list (option pkt_pipeline_hdr);
  pkt_extent : Z
}.

Record pkt_pipeline_instance := {
  pi_stage : option stage_ref;
  pi_stage_info : option addr;
  pi_stage_num : Z
}.

Record pkt_pipeline := {
  pkt_dump : option addr;
  pkt_datalink : Z;
  pkt_master_list : pkt_pipeline_list;
  pkt_stage_next : Z;
  pkt_stages : list pkt_pipeline_instance
}.

Record pkt_pipeline_source := {
  ps_pipeline : pkt_pipeline;
  ps_name : option string;
  ps_pcap_reader : option handle
}.

(** The all-zero objects that [memset] leaves. *)
Definition zero_instance : pkt_pipeline_instance :=
  {| pi_stage := None; pi_stage_info := None; pi_stage_num := 0 |}.

Definition zero_pipeline : pkt_pipeline :=
  {| pkt_dump := None; pkt_datalink := 0;
     pkt_master_list := {| pkt_list := []; pkt_extent := 0 |};
     pkt_stage_next := 0;
     pkt_stages := replicate (Z.to_nat PKT_PIPELINE_MAX) zero_instance |}.

Definition zero_source : pkt_pipeline_source :=
  {| ps_pipeline := zero_pipeline; ps_name := None; ps_pcap_reader := None |}.

(** Field updates. *)
Definition set_stage_next (n : Z) (pp : pkt_pipeline) : pkt_pipeline :=
  {| pkt_dump := pkt_dump pp; pkt_datalink := pkt_datalink pp;
     pkt_master_list := pkt_master_list pp;
     pkt_stage_next := n; pkt_stages := pkt_stages pp |}.

Definition set_stages (l : list pkt_pipeline_instance) (pp : pkt_pipeline)
  : pkt_pipeline :=
  {| pkt_dump := pkt_dump pp; pkt_datalink := pkt_datalink pp;
     pkt_master_list := pkt_master_list pp;
     pkt_stage_next := pkt_stage_next pp; pkt_stages := l |}.

Definition set_master_list (l : pkt_pipeline_list) (pp : pkt_pipeline)
  : pkt_pipeline :=
  {| pkt_dump := pkt_dump pp; pkt_datalink := pkt_datalink pp;
     pkt_master_list := l;
     pkt_stage_next := pkt_stage_next pp; pkt_stages := pkt_stages pp |}.

Definition set_datalink (d : Z) (pp : pkt_pipeline) : pkt_pipeline :=
  {| pkt_dump := pkt_dump pp; pkt_datalink := d;
     pkt_master_list := pkt_master_list pp;
     pkt_stage_next := pkt_stage_next pp; pkt_stages := pkt_stages pp |}.

(** The instance [&pp->pkt_stages[i]]. *)
Definition stage_slot (pp : pkt_pipeline) (i : Z) : option pkt_pipeline_instance :=
  pkt_stages pp !! Z.to_nat i.

(** The registry part of a pipeline: how many stages are registered, and
    which stage and number each slot holds. *)
Definition registry (pp : pkt_pipeline) : Z * list (option stage_ref * Z) :=
  (pkt_stage_next pp, (λ pi, (pi_stage pi, pi_stage_num pi)) <$> pkt_stages pp).

Section Engine.

(** Everything a stage can reach besides the pipeline it is handed: the
    private blocks behind [pi_stage_info], its output stream. *)
Context {E : Type}.

Definition machine : Type := pkt_pipeline * E.

(** A stage operation receives [pp], the instance [&pp->pkt_stages[i]]
    (here the index [i]) and, for [pp_process], [&pp->pkt_master_list];
    all three point into the same pipeline, which it may update in place.
    It returns an [int]. *)
Definition stage_op : Type := Z → machine → Z * machine.

Record pkt_pipeline_stage := {
  pp_name : string;
  pp_init : option stage_op;
  pp_process : option stage_op
}.

(** The static stage objects, by address. *)
Context (stage_at : stage_ref → pkt_pipeline_stage).

(** *** pkt_pipeline.c *)

(** [pktdump_pipeline_add]: the result is the index of the returned
    instance, [None] for NULL.  The value [pp_init] returns is dropped. *)
Definition pktdump_pipeline_add (ps : stage_ref) (m : machine)
  : option Z * machine :=
  let pp := m.1 in
  if pkt_stage_next pp >=? PKT_PIPELINE_MAX then (None, m)
  else
    let stage_num := pkt_stage_next pp in
    let pp := set_stage_next (to_u32 (pkt_stage_next pp + 1)) pp in
    let pi := {| pi_stage := Some ps;
                 pi_stage_info := stage_slot pp stage_num ≫= pi_stage_info;
                 pi_stage_num := stage_num |} in
    let pp := set_stages (<[Z.to_nat stage_num := pi]> (pkt_stages pp)) pp in
    match pp_init (stage_at ps) with
    | Some init => (Some stage_num, (init stage_num (pp, m.2)).2)
    | None => (Some stage_num, (pp, m.2))
    end.

(** Registering a list of stages one after the other, as the option loop
    of [main] does; the results are collected in order. *)
Fixpoint add_all (l : list stage_ref) (m : machine) : list (option Z) * machine :=
  match l with
  | [] => ([], m)
  | ps :: l' =>
      let r := pktdump_pipeline_add ps m in
      let rs := add_all l' r.2 in
      (r.1 :: rs.1, rs.2)
  end.

(** *** pkt_inputfile.c: the stage loop *)

(** One record per call of a [pp_process]: the index of the stage and the
    code it returned.  The log is ghost state: the C code keeps none. *)
Definition call_log : Type := list (Z * Z).

(** The [for] loop of [pktdump_process_one], from index [i] on.  [fuel]
    bounds the iterations; [PKT_PIPELINE_MAX - i] of them always
    suffice (see [run_stages_fuel]). *)
Fixpoint run_stages (fuel : nat) (i : Z) (m : machine) : call_log * machine :=
  match fuel with
  | O => ([], m)
  | S fuel' =>
      if (i <? pkt_stage_next m.1) && (i <? PKT_PIPELINE_MAX) then
        match stage_slot m.1 i ≫= pi_stage with
        | Some ps =>
            match pp_process (stage_at ps) with
            | Some process =>
                let r := process i m in
                let ret := to_u32 r.1 in
                if ret =? 0 then
                  let rest := run_stages fuel' (i + 1) r.2 in
                  ((i, r.1) :: rest.1, rest.2)
                else ([(i, r.1)], r.2)
            | None => run_stages fuel' (i + 1) m
            end
        | None => run_stages fuel' (i + 1) m
        end
      else ([], m)
  end.

End Engine.

Arguments pkt_pipeline_stage : clear implicits.
Arguments machine : clear implicits.
Arguments stage_op : clear implicits.

(** ** The capture boundary (<pcap.h>) *)

Record timeval := { tv_sec : Z; tv_usec : Z }.

(** [struct pcap_pkthdr]: [caplen] and [len] are [bpf_u_int32]; the fields
    of [ts] are as wide as [long]. *)
Record pcap_pkthdr := {
  ts : timeval;
  caplen : Z;
  len : Z
}.

(** A frame as the capture library hands it to the callback: [fr_bytes] are
    the [caplen] bytes behind the callback's [bytes] argument. *)
Record frame := {
  fr_hdr : pcap_pkthdr;
  fr_bytes : list byte
}.

(** How reading a capture ends once its frames have been delivered. *)
Inductive capture_end := EndOfFile | ReadError | LoopBroken.

(** An open [pcap_t]: the frames not yet delivered, how the read ends, and
    the link-layer type [pcap_datalink] reports. *)
Record pcap_t := {
  pcap_pending : list frame;
  pcap_end : capture_end;
  pcap_linktype : Z
}.

Definition PCAP_ERROR : Z := -1.
Definition PCAP_ERROR_BREAK : Z := -2.

Section Adapter.

Context {E : Type}.
Context (stage_at : stage_ref → pkt_pipeline_stage E).

(** *** pkt_inputfile.c: one dispatch cycle *)

(** The clamp on the captured length. *)
Definition clamp_caplen (c : Z) : Z := if c >? CAPLEN_MAX then CAPLEN_MAX else c.

(** The header [pktdump_process_one] builds at the start of [buffer1]:
    cleared, then filled from the callback's [pcap_pkthdr]. *)
Definition build_hdr (h : pcap_pkthdr) : tpacket3_hdr :=
  {| tp_next_offset := 0;
     tp_sec := to_u32 (tv_sec (ts h));
     tp_nsec := to_u32 (tv_usec (ts h));
     tp_snaplen := clamp_caplen (caplen h);
     tp_len := len h;
     tp_status := 0;
     tp_mac := PAYLOAD_OFFSET;
     tp_net := 0 |}.

(** [buffer1] after the [memcpy] of [caplen] bytes to offset 2048. *)
Definition build_buffer (h : pcap_pkthdr) (bytes : list byte) : capture_buffer :=
  {| cb_hdr := build_hdr h;
     cb_payload := take (Z.to_nat (clamp_caplen (caplen h))) bytes |}.

(** The descriptor [pkt0]: only its header pointer is assigned. *)
Definition build_descriptor (h : pcap_pkthdr) (bytes : list byte) : pkt_pipeline_hdr :=
  {| pkt_pipeline_hdr_ := build_buffer h bytes;
     pkt_pipeline_extra := replicate (Z.to_nat PKT_PIPELINE_MAX) None |}.

(** The one-entry batch installed in [pp->pkt_master_list]. *)
Definition build_batch (h : pcap_pkthdr) (bytes : list byte) : pkt_pipeline_list :=
  {| pkt_list := [Some (build_descriptor h bytes)]; pkt_extent := 1 |}.

(** [pktdump_process_one]: build the batch, then run the stage loop from
    index 0.  Nothing follows the loop.  The master list keeps the batch
    in the model; in C it dangles once the callback has returned. *)
Definition pktdump_process_one (h : pcap_pkthdr) (bytes : list byte)
    (m : machine E) : call_log * machine E :=
  let pp := set_master_list (build_batch h bytes) m.1 in
  run_stages stage_at (Z.to_nat PKT_PIPELINE_MAX) 0 (pp, m.2).

(** *** The dispatch loop *)

(** Modelled from the spec: [pcap_dispatch] of libpcap, whose code is not
    part of the sources: "once per captured frame invokes an internal
    callback" and "returns control to the capture mechanism before the
    next frame is fetched"; the result is "frames_processed | error_code,
    where a negative result distinguishes error from capture handle
    closed".  The callback returns nothing to the library. *)
Fixpoint dispatch_frames (fs : list frame) (m : machine E)
  : list call_log * machine E :=
  match fs with
  | [] => ([], m)
  | f :: fs' =>
      let r := pktdump_process_one (fr_hdr f) (fr_bytes f) m in
      let rs := dispatch_frames fs' r.2 in
      (r.1 :: rs.1, rs.2)
  end.

Definition dispatch_result (c : pcap_t) : Z :=
  match pcap_end c with
  | EndOfFile => Z.of_nat (length (pcap_pending c))
  | ReadError => PCAP_ERROR
  | LoopBroken => PCAP_ERROR_BREAK
  end.

Definition pcap_dispatch (c : pcap_t) (m : machine E)
  : Z * (list call_log * machine E) :=
  (dispatch_result c, dispatch_frames (pcap_pending c) m).

(** *** Sources on the heap *)

(** The state of the process: the live [pkt_pipeline_source] blocks, the
    open capture handles, and the stages' own state. *)
Record process_state := {
  st_heap : gmap addr pkt_pipeline_source;
  st_pcap : gmap handle pcap_t;
  st_ext : E
}.

(** A call either returns a value in a new state or has undefined
    behaviour (a null dereference, a block freed twice). *)
Inductive outcome (A : Type) :=
| Returns (a : A) (st : process_state)
| Undefined.
Global Arguments Returns {A} a st.
Global Arguments Undefined {A}.

Definition obind {A B} (o : outcome A) (k : A → process_state → outcome B)
  : outcome B :=
  match o with
  | Returns a st => k a st
  | Undefined => Undefined
  end.

Definition set_heap (hp : gmap addr pkt_pipeline_source) (st : process_state) :=
  {| st_heap := hp; st_pcap := st_pcap st; st_ext := st_ext st |}.

(** [free]: defined only on a live block. *)
Definition free (p : addr) (st : process_state) : outcome unit :=
  match st_heap st !! p with
  | Some _ => Returns () (set_heap (delete p (st_heap st)) st)
  | None => Undefined
  end.

(** [pktdump_inputsource].  [malloc_result] is what [malloc] returns
    ([None] when it fails) and [open_result] what
    [pcap_open_offline_with_tstamp_precision] does for [file]: a new
    handle, or the message it leaves in [ebuf].  The result is the
    returned pointer with the final content of [ebuf].  [memset] runs on
    the result of [malloc] unchecked. *)
Definition pktdump_inputsource
    (malloc_result : option addr)
    (open_result : string → handle * pcap_t + string)
    (file : string) (ebuf : string) (st : process_state)
  : outcome (option addr * string) :=
  match malloc_result with
  | None => Undefined
  | Some pps =>
      let st := set_heap (<[pps := zero_source]> (st_heap st)) st in
      match open_result file with
      | inr msg =>
          obind (free pps st) (λ _ st, Returns (None, msg) st)
      | inl (hd, cap) =>
          let src := {| ps_pipeline := set_datalink (pcap_linktype cap) zero_pipeline;
                        ps_name := None;
                        ps_pcap_reader := Some hd |} in
          Returns (Some pps, ebuf)
            {| st_heap := <[pps := src]> (st_heap st);
               st_pcap := <[hd := cap]> (st_pcap st);
               st_ext := st_ext st |}
      end
  end.

(** [pktdump_runpipeline]: the result with the per-frame call logs. *)
Definition pktdump_runpipeline (pps : addr) (st : process_state)
  : outcome (Z * list call_log) :=
  match st_heap st !! pps with
  | None => Undefined
  | Some src =>
      match ps_pcap_reader src ≫= λ hd, (λ c, (hd, c)) <$> st_pcap st !! hd with
      | None => Undefined
      | Some (hd, cap) =>
          let d := pcap_dispatch cap (ps_pipeline src, st_ext st) in
          let result := d.1 in
          let src' := {| ps_pipeline := d.2.2.1; ps_name := ps_name src;
                         ps_pcap_reader := ps_pcap_reader src |} in
          let cap' := {| pcap_pending := []; pcap_end := pcap_end cap;
                         pcap_linktype := pcap_linktype cap |} in
          let st' := {| st_heap := <[pps := src']> (st_heap st);
                        st_pcap := <[hd := cap']> (st_pcap st);
                        st_ext := d.2.2.2 |} in
          if result =? -2 then Returns (-2, d.2.1) st'
          else if result =? -1 then Returns (-1, d.2.1) st'
          else Returns (0, d.2.1) st'
      end
  end.

(** [pktdump_finish]. *)
Definition pktdump_finish (pps : option addr) (st : process_state) : outcome Z :=
  match pps with
  | Some p => obind (free p st) (λ _ st, Returns 1 st)
  | None => Returns 1 st
  end.

(** *** pktdump.c: what [main] does once the options are parsed *)

(** The exit status handed to [exit_tcpdump]; it is [None] when [ret] was
    never assigned (no input source). *)
Definition main_after_options (pps : option addr) (st : process_state)
  : outcome (option Z) :=
  match pps with
  | None => Returns None st
  | Some p =>
      obind (pktdump_runpipeline p st) (λ _ st,
      obind (pktdump_finish (Some p) st) (λ ret st,
      Returns (Some ret) st))
  end.

End Adapter.

Arguments process_state : clear implicits.
Arguments outcome : clear implicits.

(** ** The stage engine in the words of its description *)

Section Described.

Context {E : Type}.
Context (stage_at : stage_ref → pkt_pipeline_stage E).

(** The process operation registered at index [i], if any. *)
Definition process_at (pp : pkt_pipeline) (i : Z) : option (stage_op E) :=
  match stage_slot pp i ≫= pi_stage with
  | Some ps => pp_process (stage_at ps)
  | None => None
  end.

(** The registered stages in registration order: indices 0, 1, 2, ... up
    to the stage count (which the array bounds by [PKT_PIPELINE_MAX]). *)
Definition registered_from (pp : pkt_pipeline) (i : Z)
  : list (Z * option (stage_op E)) :=
  (λ j, (j, process_at pp j)) <$>
    seqZ i (Z.min (pkt_stage_next pp) PKT_PIPELINE_MAX - i).

Definition registered (pp : pkt_pipeline) : list (Z * option (stage_op E)) :=
  registered_from pp 0.

(** "Iterates registered stages strictly in registration order.  A stage
    with no process operation is skipped. [...] if the returned code is
    non-zero, stop invoking further stages for this batch [...]
    mutations already made by earlier stages persist." *)
Fixpoint run_in_order (stages : list (Z * option (stage_op E))) (m : machine E)
  : call_log * machine E :=
  match stages with
  | [] => ([], m)
  | (_, None) :: rest => run_in_order rest m
  | (i, Some process) :: rest =>
      let r := process i m in
      if r.1 =? 0 then
        let out := run_in_order rest r.2 in
        ((i, r.1) :: out.1, out.2)
      else ([(i, r.1)], r.2)
  end.

(** What a well-behaved stage operation leaves alone, and what it
    returns. *)
Definition keeps_registry (op : stage_op E) : Prop :=
  ∀ i m, registry (op i m).2.1 = registry m.1.

Definition returns_int (op : stage_op E) : Prop :=
  ∀ i m, is_int (op i m).1.

Definition inits_keep_registry : Prop :=
  ∀ ps init, pp_init (stage_at ps) = Some init → keeps_registry init.

Definition processes_behave : Prop :=
  ∀ ps process, pp_process (stage_at ps) = Some process →
    keeps_registry process ∧ returns_int process.

End Described.

(** ** Sample stages *)

Module Sample.

(** The stages' own state: a counter. *)
Definition counting : stage_op Z := λ _ m, (0, (m.1, m.2 + 1)).

Definition rejecting : stage_op Z := λ _ m, (-1, (m.1, m.2 + 100)).

(** An init that fails as [pkt_hexdumpc_init] does when [malloc] fails:
    [pi_stage_info] stays NULL and the result is -2. *)
Definition failing_init : stage_op Z := λ _ m, (-2, m).

Definition set_status (s : Z) (d : pkt_pipeline_hdr) : pkt_pipeline_hdr :=
  let b := pkt_pipeline_hdr_ d in
  let h := cb_hdr b in
  {| pkt_pipeline_hdr_ :=
       {| cb_hdr := {| tp_next_offset := tp_next_offset h; tp_sec := tp_sec h;
                       tp_nsec := tp_nsec h; tp_snaplen := tp_snaplen h;
                       tp_len := tp_len h; tp_status := s;
                       tp_mac := tp_mac h; tp_net := tp_net h |};
          cb_payload := cb_payload b |};
     pkt_pipeline_extra := pkt_pipeline_extra d |}.

(** A stage that takes every packet of the batch for itself for a while:
    it sets the status to [TP_STATUS_USER] and leaves the entry in the
    batch. *)
Definition holding : stage_op Z := λ _ m,
  let ppl := pkt_master_list m.1 in
  (0, (set_master_list
         {| pkt_list := option_map (set_status TP_STATUS_USER) <$> pkt_list ppl;
            pkt_extent := pkt_extent ppl |} m.1, m.2)).

Definition stage_at (ps : stage_ref) : pkt_pipeline_stage Z :=
  match ps with
  | 0%nat => {| pp_name := "count"; pp_init := None; pp_process := Some counting |}
  | 1%nat => {| pp_name := "idle"; pp_init := None; pp_process := None |}
  | 2%nat => {| pp_name := "reject"; pp_init := None; pp_process := Some rejecting |}
  | 3%nat => {| pp_name := "badinit"; pp_init := Some failing_init;
                pp_process := Some counting |}
  | 4%nat => {| pp_name := "hold"; pp_init := None; pp_process := Some holding |}
  | _ => {| pp_name := "none"; pp_init := None; pp_process := None |}
  end.

Definition hdr64 : pcap_pkthdr :=
  {| ts := {| tv_sec := 10; tv_usec := 500 |}; caplen := 64; len := 128 |}.

Definition bytes64 : list byte := replicate 64 x2a.

Definition frame64 : frame := {| fr_hdr := hdr64; fr_bytes := bytes64 |}.

Definition hdr_big : pcap_pkthdr :=
  {| ts := {| tv_sec := 10; tv_usec := 500 |}; caplen := 70000; len := 70000 |}.

Definition start : machine Z := (zero_pipeline, 0).

(** A three-frame capture, open under handle 7, read by the source at
    address 4096. *)
Definition capture3 : pcap_t :=
  {| pcap_pending := [frame64; frame64; frame64]; pcap_end := EndOfFile;
     pcap_linktype := 1 |}.

Definition open_capture3 (file : string) : handle * pcap_t + string :=
  if String.eqb file "three.pcap" then inl (7, capture3)
  else inr "No such file or directory"%string.

Definition boot : process_state Z :=
  {| st_heap := ∅; st_pcap := ∅; st_ext := 0 |}.

(** The state once "three.pcap" is open. *)
Definition source3 : pkt_pipeline_source :=
  {| ps_pipeline := set_datalink 1 zero_pipeline; ps_name := None;
     ps_pcap_reader := Some 7 |}.

Definition opened : process_state Z :=
  {| st_heap := {[ 4096 := source3 ]}; st_pcap := {[ 7 := capture3 ]};
     st_ext := 0 |}.

(** The same state after [pktdump_finish]: the block is gone. *)
Definition finished : process_state Z :=
  {| st_heap := ∅; st_pcap := {[ 7 := capture3 ]}; st_ext := 0 |}.

End Sample.

(** ** pkt_dumpc.c: the hex-dump stage *)

(** [PCAP_TSTAMP_PRECISION_NANO] of <pcap.h>. *)
Definition PCAP_TSTAMP_PRECISION_NANO : Z := 1.

(** [struct dumpc_pipeline_private]: of [ndo], the two fields that
    [pkt_hexdumpc_init] assigns itself; [ndo_if_printer] is a function
    pointer, here the number that stands for it.  The fields that
    [ndo_set_function_pointers] of the dissector library fills in are left
    out: the stage never reads them. *)
Record dumpc_pipeline_private := {
  ndo_tstamp_precision : Z;
  ndo_if_printer : Z;
  pkt_num : Z
}.

(** What [pkt_hexdumpc_process] writes to [stdout], one event per
    [fprintf]:
    - ["char *packet_%03u = {\n"] with the packet number;
    - ["0x%02x, "], whose argument is the pointer [bytes] itself, kept here
      as its offset from the start of the frame header;
    - ["\n%s "] with the indentation;
    - ["\n};\n"]. *)
Inductive out_event :=
| PacketOpen (n : Z)
| ByteItem (p : Z)
| LineBreak
| PacketClose.

(** What the stage can reach besides the pipeline: its private blocks,
    [stdout], and the results of the calls of [malloc] to come (when none is
    left, [malloc] fails). *)
Record dumpc_world := {
  dw_blocks : gmap addr dumpc_pipeline_private;
  dw_stdout : list out_event;
  dw_malloc : list (option addr)
}.

(** The stage runs, or the process is gone: [Crashed] after undefined
    behaviour (a null or dangling [pi_stage_info], a read past [pkt_list],
    an [int] that overflows), [OutOfFuel] when the packet loop was cut
    short.  The last two are final: every operation leaves them as they
    are. *)
Inductive dumpc_state :=
| Running (w : dumpc_world)
| Crashed
| OutOfFuel.

Definition INT_MAX : Z := 2 ^ 31 - 1.

(** [i++] on an [int]. *)
Definition int_succ (i : Z) : option Z :=
  if i <? INT_MAX then Some (i + 1) else None.

Definition set_stage_info (info : option addr) (pi : pkt_pipeline_instance)
  : pkt_pipeline_instance :=
  {| pi_stage := pi_stage pi; pi_stage_info := info;
     pi_stage_num := pi_stage_num pi |}.

Definition set_pkt_num (n : Z) (priv : dumpc_pipeline_private)
  : dumpc_pipeline_private :=
  {| ndo_tstamp_precision := ndo_tstamp_precision priv;
     ndo_if_printer := ndo_if_printer priv; pkt_num := n |}.

Definition print (evs : list out_event) (w : dumpc_world) : dumpc_world :=
  {| dw_blocks := dw_blocks w; dw_stdout := dw_stdout w ++ evs;
     dw_malloc := dw_malloc w |}.

Section Dumpc.

(** [get_if_printer] of the dissector library, by link type; its code is
    not among the sources. *)
Context (get_if_printer : Z → Z).

(** [pkt_hexdumpc_init]. *)
Definition pkt_hexdumpc_init : stage_op dumpc_state := λ i m,
  match m.2 with
  | Running w =>
      let block := match dw_malloc w with r :: _ => r | [] => None end in
      let pp := set_stages (alter (set_stage_info block) (Z.to_nat i)
                              (pkt_stages m.1)) m.1 in
      match block with
      | None =>
          (-2, (pp, Running {| dw_blocks := dw_blocks w;
                               dw_stdout := dw_stdout w;
                               dw_malloc := tail (dw_malloc w) |}))
      | Some a =>
          let priv := {| ndo_tstamp_precision := PCAP_TSTAMP_PRECISION_NANO;
                         ndo_if_printer := get_if_printer (pkt_datalink m.1);
                         pkt_num := 0 |} in
          (0, (pp, Running {| dw_blocks := <[a := priv]> (dw_blocks w);
                              dw_stdout := dw_stdout w;
                              dw_malloc := tail (dw_malloc w) |}))
      end
  | _ => (0, m)
  end.

(** The [while] loop over the bytes of one packet: [n] is [h.caplen], [p]
    the pointer [bytes] and [i] the counter, which is the [int] that also
    indexes the packets.  The result is the output and the final [i];
    [None] when [i] overflows. *)
Fixpoint dump_bytes (n : nat) (p i : Z) : option (list out_event * Z) :=
  match n with
  | O => Some ([], i)
  | S n' =>
      match int_succ i with
      | Some i' =>
          match dump_bytes n' (p + 1) i' with
          | Some r =>
              Some (ByteItem p
                      :: (if Z.rem i 8 =? 0 then [LineBreak] else []) ++ r.1,
                    r.2)
          | None => None
          end
      | None => None
      end
  end.

(** The [for] loop of [pkt_hexdumpc_process] from index [i] on, with [ppp]
    the stage's [pi_stage_info].  The body sets [i] to 0 and counts the
    bytes of the packet with it, so the loop goes on from the captured
    length plus one. *)
Fixpoint hexdumpc_loop (fuel : nat) (ppp : option addr)
    (packlist : pkt_pipeline_list) (i : Z) (w : dumpc_world) : dumpc_state :=
  match fuel with
  | O => OutOfFuel
  | S fuel' =>
      if to_u32 i <? pkt_extent packlist then
        match pkt_list packlist !! Z.to_nat i with
        | None => Crashed
        | Some None =>
            match int_succ i with
            | Some i' => hexdumpc_loop fuel' ppp packlist i' w
            | None => Crashed
            end
        | Some (Some pph) =>
            match ppp with
            | None => Crashed
            | Some a =>
                match dw_blocks w !! a with
                | None => Crashed
                | Some priv =>
                    let th := cb_hdr (pkt_pipeline_hdr_ pph) in
                    let w1 :=
                      {| dw_blocks :=
                           <[a := set_pkt_num (to_u32 (pkt_num priv + 1)) priv]>
                             (dw_blocks w);
                         dw_stdout := dw_stdout w ++ [PacketOpen (pkt_num priv)];
                         dw_malloc := dw_malloc w |} in
                    match dump_bytes (Z.to_nat (tp_snaplen th)) (tp_mac th) 0 with
                    | None => Crashed
                    | Some r =>
                        match int_succ r.2 with
                        | Some i' =>
                            hexdumpc_loop fuel' ppp packlist i'
                              (print (r.1 ++ [PacketClose]) w1)
                        | None => Crashed
                        end
                    end
                end
            end
        end
      else Running w
  end.

(** [pkt_hexdumpc_process]: it returns 0 whenever it returns. *)
Definition pkt_hexdumpc_process (fuel : nat) : stage_op dumpc_state := λ i m,
  match m.2 with
  | Running w =>
      (0, (m.1, hexdumpc_loop fuel (stage_slot m.1 i ≫= pi_stage_info)
                  (pkt_master_list m.1) 0 w))
  | _ => (0, m)
  end.

(** The stage object [hexdumpc_pipeline], the only one of the file: every
    stage reference of a program that registers nothing else denotes it. *)
Definition hexdumpc_pipeline (fuel : nat) : pkt_pipeline_stage dumpc_state :=
  {| pp_name := "hexdumpc";
     pp_init := Some pkt_hexdumpc_init;
     pp_process := Some (pkt_hexdumpc_process fuel) |}.

Definition hexdumpc_ref : stage_ref := 0%nat.

Definition dumpc_stage_at (fuel : nat) (ps : stage_ref)
  : pkt_pipeline_stage dumpc_state := hexdumpc_pipeline fuel.

(** [pktdump_hexdumpc_pipeline]. *)
Definition pktdump_hexdumpc_pipeline (fuel : nat) (m : machine dumpc_state)
  : Z * machine dumpc_state :=
  let r := pktdump_pipeline_add (dumpc_stage_at fuel) hexdumpc_ref m in
  match r.1 with
  | None => (-1, r.2)
  | Some _ => (0, r.2)
  end.

End Dumpc.

(** The output of [dump_bytes] in closed form: byte [k] of the packet is
    followed by a line break when the counter, started at [i], is a
    multiple of 8. *)
Definition dump_item (p i k : Z) : list out_event :=
  ByteItem (p + k) :: (if Z.rem (i + k) 8 =? 0 then [LineBreak] else []).

Definition dump_events (p i : Z) (n : nat) : list out_event :=
  seqZ 0 (Z.of_nat n) ≫= dump_item p i.

(** The text for one packet, numbered [k], of captured length [c] and
    payload offset [p]. *)
Definition dump_packet (k p c : Z) : list out_event :=
  PacketOpen k :: dump_events p 0 (Z.to_nat c) ++ [PacketClose].

(** The text for the frames of a capture, numbered from [k] on, each as the
    adapter describes it. *)
Fixpoint dump_output (k : Z) (fs : list frame) : list out_event :=
  match fs with
  | [] => []
  | f :: fs' =>
      dump_packet (to_u32 k) PAYLOAD_OFFSET (clamp_caplen (caplen (fr_hdr f)))
        ++ dump_output (k + 1) fs'
  end.

(** The world once the packet behind [pph] has been dumped by the stage
    whose private block [priv] lies at [a]. *)
Definition dumped (a : addr) (priv : dumpc_pipeline_private)
    (pph : pkt_pipeline_hdr) (w : dumpc_world) : dumpc_world :=
  {| dw_blocks := <[a := set_pkt_num (to_u32 (pkt_num priv + 1)) priv]>
                    (dw_blocks w);
     dw_stdout := dw_stdout w
                    ++ dump_packet (pkt_num priv)
                         (tp_mac (cb_hdr (pkt_pipeline_hdr_ pph)))
                         (tp_snaplen (cb_hdr (pkt_pipeline_hdr_ pph)));
     dw_malloc := dw_malloc w |}.

(** A pipeline whose only stage is the hex-dump stage, initialised, with
    its private block at [a] and [k] packets counted. *)
Definition dumpc_ready (a : addr) (k : Z) (out : list out_event)
    (m : machine dumpc_state) : Prop :=
  pkt_stage_next m.1 = 1
  ∧ stage_slot m.1 0 = Some {| pi_stage := Some hexdumpc_ref;
                               pi_stage_info := Some a; pi_stage_num := 0 |}
  ∧ ∃ w, m.2 = Running w
         ∧ (pkt_num <$> dw_blocks w !! a) = Some k
         ∧ dw_stdout w = out.

Global Instance out_event_eq_dec : EqDecision out_event.
Proof. solve_decision. Defined.

(** The machine right after [pktdump_inputsource] for a capture of link
    type [d], with the hex-dump stage's world [w]. *)
Definition dumpc_opened (d : Z) (w : dumpc_world) : machine dumpc_state :=
  (set_datalink d zero_pipeline, Running w).

(** ** pktdump.c: [main] *)

(** [enum LONG_OPTIONS]. *)
Definition OPTION_VERSION : Z := 128.
Definition OPTION_INPUTFILE : Z := 129.
Definition OPTION_INPUTPCAP : Z := 130.
Definition OPTION_INPUTPCAPNG : Z := 131.
Definition OPTION_OUTPUTPCAP : Z := 132.
Definition OPTION_OUTPUTPCAPNG : Z := 133.
Definition OPTION_PRINT : Z := 134.

(** The exit statuses [main] uses; their values are those of netdissect.h,
    which is not among the sources. *)
Record status_codes := {
  S_SUCCESS : Z;
  S_ERR_HOST_PROGRAM : Z;
  S_ERR_ND_OPEN_FILE : Z;
  S_ERR_PD_NO_INPUT : Z
}.

(** What [main] writes to [stderr]. *)
Inductive message :=
| MisalignmentError (ebuf : string)
| VersionText
| UsageText
| CanNotReadPcap (file ebuf : string)
| NoInputSource
| CanNotInitializePrinting.

Section Main.

Context {E : Type}.
Context (stage_at : stage_ref → pkt_pipeline_stage E).
Context (codes : status_codes).

(** [pktdump_print_pipeline], declared in pkt_pipeline.h and defined
    outside the sources: it is given the source and returns an [int]. *)
Context (pktdump_print_pipeline : addr → process_state E → outcome E Z).

(** [pcap_open_offline_with_tstamp_precision], by file name. *)
Context (open_result : string → handle * pcap_t + string).

(** How [main] ends: [exit_tcpdump] with a status ([None] when [ret] was
    never assigned) after the messages written, or undefined behaviour. *)
Inductive main_result :=
| Exits (status : option Z) (err : list message) (st : process_state E)
| MainUndefined.

(** The option loop.  [opts] are the results of the calls of [getopt_long]
    before it returns -1, each with its [optarg]; [mallocs] the results of
    the calls of [malloc] to come. *)
Fixpoint main_options (opts : list (Z * string)) (mallocs : list (option addr))
    (pps : option addr) (ebuf : string) (err : list message)
    (st : process_state E) : main_result :=
  match opts with
  | [] =>
      match main_after_options stage_at pps st with
      | Returns status st' => Exits status err st'
      | Undefined => MainUndefined
      end
  | (op, optarg) :: opts' =>
      if op =? OPTION_VERSION then
        Exits (Some (S_SUCCESS codes)) (err ++ [VersionText]) st
      else if op =? OPTION_INPUTPCAP then
        match pktdump_inputsource
                (match mallocs with r :: _ => r | [] => None end)
                open_result optarg ebuf st with
        | Returns (Some p, ebuf') st' =>
            main_options opts' (tail mallocs) (Some p) ebuf' err st'
        | Returns (None, ebuf') st' =>
            Exits (Some (S_ERR_ND_OPEN_FILE codes))
              (err ++ [CanNotReadPcap optarg ebuf']) st'
        | Undefined => MainUndefined
        end
      else if op =? OPTION_PRINT then
        match pps with
        | None =>
            Exits (Some (S_ERR_PD_NO_INPUT codes)) (err ++ [NoInputSource]) st
        | Some p =>
            match pktdump_print_pipeline p st with
            | Returns r st' =>
                if r =? 0 then main_options opts' mallocs pps ebuf err st'
                else Exits (Some (S_ERR_PD_NO_INPUT codes))
                       (err ++ [CanNotInitializePrinting]) st'
            | Undefined => MainUndefined
            end
        end
      else
        Exits (Some (S_ERR_HOST_PROGRAM codes))
          (err ++ [VersionText; UsageText]) st
  end.

(** [main]: [misaligned] is the message [abort_on_misalignment] leaves in
    [ebuf] when it fails; [ebuf] the content of the buffer otherwise. *)
Definition main (misaligned : option string) (opts : list (Z * string))
    (mallocs : list (option addr)) (ebuf : string) (st : process_state E)
  : main_result :=
  match misaligned with
  | Some msg =>
      Exits (Some (S_ERR_HOST_PROGRAM codes)) [MisalignmentError msg] st
  | None => main_options opts mallocs None ebuf [] st
  end.

End Main.

Arguments main_result : clear implicits.

(** The statuses [main] can exit with besides an unassigned [ret]: the 1
    that [pktdump_finish] returns, and the four named ones. *)
Definition named_status (codes : status_codes) (status : option Z) : Prop :=
  status = Some 1
  ∨ status = Some (S_SUCCESS codes)
  ∨ status = Some (S_ERR_HOST_PROGRAM codes)
  ∨ status = Some (S_ERR_ND_OPEN_FILE codes)
  ∨ status = Some (S_ERR_PD_NO_INPUT codes).

(** ** A sample run of the hex-dump stage *)

Module DumpSample.

(** A stand-in for the printer table. *)
Definition printer_of (d : Z) : Z := 1000 + d.

Definition fresh : dumpc_world :=
  {| dw_blocks := ∅; dw_stdout := []; dw_malloc := [Some 8192] |}.

(** The machine after [pktdump_hexdumpc_pipeline] on a source opened for
    link type 1. *)
Definition ready : machine dumpc_state :=
  (pktdump_hexdumpc_pipeline printer_of 2 (dumpc_opened 1 fresh)).2.

Definition ready_world : dumpc_world :=
  {| dw_blocks := {[ 8192 := {| ndo_tstamp_precision := 1;
                                ndo_if_printer := 1001; pkt_num := 0 |} ]};
     dw_stdout := []; dw_malloc := [] |}.

Definition hdr3 : pcap_pkthdr :=
  {| ts := {| tv_sec := 10; tv_usec := 500 |}; caplen := 3; len := 3 |}.

Definition bytes3 : list byte := [x01; x02; x03].

Definition hdr0 : pcap_pkthdr :=
  {| ts := {| tv_sec := 10; tv_usec := 500 |}; caplen := 0; len := 0 |}.

(** [ready] with a batch installed. *)
Definition with_batch (l : pkt_pipeline_list) : machine dumpc_state :=
  (set_master_list l ready.1, ready.2).

Definition batch_of_two (h : pcap_pkthdr) (bytes : list byte) : pkt_pipeline_list :=
  {| pkt_list := [Some (build_descriptor h bytes); Some (build_descriptor h bytes)];
     pkt_extent := 2 |}.

End DumpSample.

(** ** A sample command line *)

Module MainSample.

(** Stand-ins for the statuses of netdissect.h and for the printing
    stage. *)
Definition codes : status_codes :=
  {| S_SUCCESS := 0; S_ERR_HOST_PROGRAM := 1; S_ERR_ND_OPEN_FILE := 13;
     S_ERR_PD_NO_INPUT := 20 |}.

Definition print_pipeline (p : addr) (st : process_state Z) : outcome Z Z :=
  Returns 0 st.

Definition run (opts : list (Z * string)) : main_result Z :=
  main Sample.stage_at codes print_pipeline Sample.open_capture3
    None opts [Some 4096] "" Sample.boot.

End MainSample.

(** ** The mutation contract of a stage *)

(** What a stage may do to a batch entry: claim it, or leave it in place
    with a captured length that is no longer than it was; the status and
    the payload offset of an entry that stays are as before, and an absent
    entry stays absent. *)
Definition entry_within_contract (before after : option pkt_pipeline_hdr) : Prop :=
  match after with
  | None => True
  | Some d' =>
      ∃ d, before = Some d
           ∧ tp_snaplen (cb_hdr (pkt_pipeline_hdr_ d'))
             <= tp_snaplen (cb_hdr (pkt_pipeline_hdr_ d))
           ∧ tp_status (cb_hdr (pkt_pipeline_hdr_ d'))
             = tp_status (cb_hdr (pkt_pipeline_hdr_ d))
           ∧ tp_mac (cb_hdr (pkt_pipeline_hdr_ d'))
             = tp_mac (cb_hdr (pkt_pipeline_hdr_ d))
  end.

Definition follows_mutation_contract {E : Type} (op : stage_op E) : Prop :=
  ∀ i m, Forall2 entry_within_contract
           (pkt_list (pkt_master_list m.1))
           (pkt_list (pkt_master_list (op i m).2.1)).

Definition stages_follow_contract {E : Type}
    (stage_at : stage_ref → pkt_pipeline_stage E) : Prop :=
  ∀ ps process, pp_process (stage_at ps) = Some process →
                follows_mutation_contract process.

(** Two stages that use the contract: one keeps the first 14 bytes of
    every packet, the other claims every packet. *)
Module ContractSample.

Definition set_snaplen (n : Z) (d : pkt_pipeline_hdr) : pkt_pipeline_hdr :=
  let b := pkt_pipeline_hdr_ d in
  let h := cb_hdr b in
  {| pkt_pipeline_hdr_ :=
       {| cb_hdr := {| tp_next_offset := tp_next_offset h; tp_sec := tp_sec h;
                       tp_nsec := tp_nsec h; tp_snaplen := n;
                       tp_len := tp_len h; tp_status := tp_status h;
                       tp_mac := tp_mac h; tp_net := tp_net h |};
          cb_payload := cb_payload b |};
     pkt_pipeline_extra := pkt_pipeline_extra d |}.

Definition keep14 (d : pkt_pipeline_hdr) : pkt_pipeline_hdr :=
  set_snaplen (Z.min 14 (tp_snaplen (cb_hdr (pkt_pipeline_hdr_ d)))) d.

Definition shrinking : stage_op Z := λ _ m,
  let ppl := pkt_master_list m.1 in
  (0, (set_master_list
         {| pkt_list := option_map keep14 <$> pkt_list ppl;
            pkt_extent := pkt_extent ppl |} m.1, m.2 + 1)).

Definition claiming : stage_op Z := λ _ m,
  let ppl := pkt_master_list m.1 in
  (-1, (set_master_list
          {| pkt_list := (λ _, None) <$> pkt_list ppl;
             pkt_extent := pkt_extent ppl |} m.1, m.2 + 1)).

Definition stage_at (ps : stage_ref) : pkt_pipeline_stage Z :=
  match ps with
  | 0%nat => {| pp_name := "shrink"; pp_init := None; pp_process := Some shrinking |}
  | 1%nat => {| pp_name := "claim"; pp_init := None; pp_process := Some claiming |}
  | _ => {| pp_name := "none"; pp_init := None; pp_process := None |}
  end.

End ContractSample.

(** A pipeline record with nine stages counted and nine slots filled: one
    more than the stage array of the C structure can hold. *)
Module GuardSample.

Definition overfull : machine Z :=
  (set_stage_next 9
     (set_stages
        (replicate 9 {| pi_stage := Some 0%nat; pi_stage_info := None;
                        pi_stage_num := 0 |})
        zero_pipeline), 0).

End GuardSample.

(** * Properties *)

(** ** Machine integers *)

Lemma to_u32_small (z : Z) : 0 <= z < 2 ^ 32 → to_u32 z = z.
Proof. intros Hz. unfold to_u32. by rewrite Z.mod_small. Qed.

Lemma to_u32_eqb_0 (r : Z) : is_int r → (to_u32 r =? 0) = (r =? 0).
Proof.
  unfold is_int, to_u32. intros Hr.
  change (2 ^ 32) with 4294967296. change (2 ^ 31) with 2147483648 in Hr.
  destruct (Z.eqb_spec r 0) as [-> | Hne]; [done |].
  apply Z.eqb_neq. Z.div_mod_to_equations. lia.
Qed.

(** ** Field updates and the registry *)

Lemma registry_lookup (pp : pkt_pipeline) (i : nat) :
  (registry pp).2 !! i =
    (λ pi, (pi_stage pi, pi_stage_num pi)) <$> pkt_stages pp !! i.
Proof. unfold registry. simpl. apply list_lookup_fmap. Qed.

Lemma registry_stage (pp pp' : pkt_pipeline) (i : Z) :
  registry pp = registry pp' →
  stage_slot pp i ≫= pi_stage = stage_slot pp' i ≫= pi_stage.
Proof.
  intros Hreg. unfold stage_slot.
  assert (Hl : (registry pp).2 !! Z.to_nat i = (registry pp').2 !! Z.to_nat i)
    by by rewrite Hreg.
  rewrite !registry_lookup in Hl.
  destruct (pkt_stages pp !! Z.to_nat i), (pkt_stages pp' !! Z.to_nat i);
    simpl in *; congruence.
Qed.

Lemma registry_next (pp pp' : pkt_pipeline) :
  registry pp = registry pp' → pkt_stage_next pp = pkt_stage_next pp'.
Proof. unfold registry. intros Hreg. by injection Hreg. Qed.

Lemma registry_set_master_list (l : pkt_pipeline_list) (pp : pkt_pipeline) :
  registry (set_master_list l pp) = registry pp.
Proof. reflexivity. Qed.

Section Registry.

Context {E : Type}.
Context (stage_at : stage_ref → pkt_pipeline_stage E).

(** A registration into a full registry is refused and changes nothing. *)
Lemma add_full (ps : stage_ref) (m : machine E) :
  PKT_PIPELINE_MAX <= pkt_stage_next m.1 →
  pktdump_pipeline_add stage_at ps m = (None, m).
Proof.
  intros Hfull. unfold pktdump_pipeline_add.
  destruct (Z.geb_spec (pkt_stage_next m.1) PKT_PIPELINE_MAX); [done | lia].
Qed.

(** One registration below capacity: the index is the old stage count,
    and the registry gains exactly that slot. *)
Lemma add_registry (ps : stage_ref) (m : machine E) :
  inits_keep_registry stage_at →
  0 <= pkt_stage_next m.1 < PKT_PIPELINE_MAX →
  (pktdump_pipeline_add stage_at ps m).1 = Some (pkt_stage_next m.1)
  ∧ registry (pktdump_pipeline_add stage_at ps m).2.1 =
      (pkt_stage_next m.1 + 1,
       <[Z.to_nat (pkt_stage_next m.1) := (Some ps, pkt_stage_next m.1)]>
         (registry m.1).2).
Proof.
  intros Hinit Hk. unfold pktdump_pipeline_add.
  destruct (Z.geb_spec (pkt_stage_next m.1) PKT_PIPELINE_MAX) as [Hge | _];
    [lia |].
  assert (Hnext : to_u32 (pkt_stage_next m.1 + 1) = pkt_stage_next m.1 + 1).
  { apply to_u32_small. unfold PKT_PIPELINE_MAX in Hk. lia. }
  destruct (pp_init (stage_at ps)) as [init |] eqn:Hi; simpl;
    (split; [done |]).
  - rewrite (Hinit ps init Hi). unfold registry. simpl.
    by rewrite Hnext, list_fmap_insert.
  - unfold registry. simpl. by rewrite Hnext, list_fmap_insert.
Qed.

(** A run of registrations from stage count [k]. *)
Lemma add_all_registry (l : list stage_ref) :
  inits_keep_registry stage_at →
  ∀ (m : machine E) (k : nat),
    pkt_stage_next m.1 = Z.of_nat k →
    (k + length l ≤ Z.to_nat PKT_PIPELINE_MAX)%nat →
    (k + length l ≤ length (pkt_stages m.1))%nat →
    let r := add_all stage_at l m in
    r.1 = Some <$> seqZ (Z.of_nat k) (Z.of_nat (length l))
    ∧ pkt_stage_next r.2.1 = Z.of_nat (k + length l)
    ∧ (∀ j ps, l !! j = Some ps →
         (registry r.2.1).2 !! (k + j)%nat = Some (Some ps, Z.of_nat (k + j)))
    ∧ (∀ i, (i < k)%nat → (registry r.2.1).2 !! i = (registry m.1).2 !! i)
    ∧ length (pkt_stages r.2.1) = length (pkt_stages m.1).
Proof.
  intros Hinit. induction l as [| ps l IH]; intros m k Hk Hcap Hlen; simpl.
  - repeat split; try done. rewrite Hk. f_equal. lia.
  - simpl in Hcap, Hlen.
    destruct (add_registry ps m Hinit) as [Hres Hreg].
    { unfold PKT_PIPELINE_MAX in *. lia. }
    set (m1 := (pktdump_pipeline_add stage_at ps m).2) in *.
    assert (Hk1 : pkt_stage_next m1.1 = Z.of_nat (S k)).
    { change (pkt_stage_next m1.1) with (registry m1.1).1.
      rewrite Hreg. simpl. lia. }
    assert (Hlen1 : length (pkt_stages m1.1) = length (pkt_stages m.1)).
    { assert (Hl : length (registry m1.1).2 = length (registry m.1).2)
        by by rewrite Hreg; simpl; rewrite length_insert.
      unfold registry in Hl. simpl in Hl. by rewrite !length_fmap in Hl. }
    destruct (IH m1 (S k) Hk1) as (H1 & H2 & H3 & H4 & H5); [lia | lia |].
    rewrite Hk in Hreg, Hres. rewrite Nat2Z.id in Hreg.
    repeat split.
    + rewrite Hres, H1.
      rewrite (seqZ_cons (Z.of_nat k)) by lia. simpl.
      do 3 f_equal; lia.
    + rewrite H2. f_equal. lia.
    + intros [| j] ps' Hj; simpl in Hj.
      * injection Hj as <-. rewrite H4 by lia. rewrite Hreg. simpl.
        rewrite Nat.add_0_r. apply list_lookup_insert_eq.
        rewrite length_fmap. lia.
      * replace (k + S j)%nat with (S k + j)%nat by lia. by apply H3.
    + intros i Hi. rewrite H4 by lia. rewrite Hreg. simpl.
      apply list_lookup_insert_ne. lia.
    + by rewrite H5.
Qed.

End Registry.

(** ** The stage loop *)

Section Loop.

Context {E : Type}.
Context (stage_at : stage_ref → pkt_pipeline_stage E).

(** One round of the loop, and the loop as [pktdump_process_one] runs
    it. *)
Lemma run_stages_S (fuel : nat) (i : Z) (m : machine E) :
  run_stages stage_at (S fuel) i m =
    if (i <? pkt_stage_next m.1) && (i <? PKT_PIPELINE_MAX) then
      match stage_slot m.1 i ≫= pi_stage with
      | Some ps =>
          match pp_process (stage_at ps) with
          | Some process =>
              if to_u32 (process i m).1 =? 0 then
                ((i, (process i m).1)
                   :: (run_stages stage_at fuel (i + 1) (process i m).2).1,
                 (run_stages stage_at fuel (i + 1) (process i m).2).2)
              else ([(i, (process i m).1)], (process i m).2)
          | None => run_stages stage_at fuel (i + 1) m
          end
      | None => run_stages stage_at fuel (i + 1) m
      end
    else ([], m).
Proof. reflexivity. Qed.

Lemma process_one_run (h : pcap_pkthdr) (bytes : list byte) (m : machine E) :
  pktdump_process_one stage_at h bytes m =
    run_stages stage_at (Z.to_nat PKT_PIPELINE_MAX) 0
      (set_master_list (build_batch h bytes) m.1, m.2).
Proof. reflexivity. Qed.

Lemma process_at_registry (pp pp' : pkt_pipeline) (i : Z) :
  registry pp = registry pp' →
  process_at stage_at pp i = process_at stage_at pp' i.
Proof. intros Hreg. unfold process_at. by rewrite (registry_stage pp pp'). Qed.

Lemma registered_from_registry (pp pp' : pkt_pipeline) (i : Z) :
  registry pp = registry pp' →
  registered_from stage_at pp i = registered_from stage_at pp' i.
Proof.
  intros Hreg. unfold registered_from.
  rewrite (registry_next pp pp' Hreg).
  apply list_fmap_ext. intros _ j _.
  by rewrite (process_at_registry pp pp').
Qed.

Lemma registered_from_cons (pp : pkt_pipeline) (i : Z) :
  i < pkt_stage_next pp → i < PKT_PIPELINE_MAX →
  registered_from stage_at pp i =
    (i, process_at stage_at pp i) :: registered_from stage_at pp (i + 1).
Proof.
  intros Hn Hmax. unfold registered_from.
  rewrite seqZ_cons by lia. simpl.
  replace (Z.succ i) with (i + 1) by lia.
  by replace (Z.pred (Z.min (pkt_stage_next pp) PKT_PIPELINE_MAX - i))
    with (Z.min (pkt_stage_next pp) PKT_PIPELINE_MAX - (i + 1)) by lia.
Qed.

Lemma registered_from_nil (pp : pkt_pipeline) (i : Z) :
  pkt_stage_next pp <= i ∨ PKT_PIPELINE_MAX <= i →
  registered_from stage_at pp i = [].
Proof. intros Hi. unfold registered_from. rewrite seqZ_nil; [done | lia]. Qed.

(** The loop guard, as a proposition. *)
Lemma guard_spec (pp : pkt_pipeline) (i : Z) :
  (i <? pkt_stage_next pp) && (i <? PKT_PIPELINE_MAX) = true
  ↔ i < pkt_stage_next pp ∧ i < PKT_PIPELINE_MAX.
Proof. rewrite andb_true_iff, !Z.ltb_lt. tauto. Qed.

(** With fuel for the slots left, the loop is the described walk over the
    registered stages. *)
Lemma run_stages_described (fuel : nat) :
  processes_behave stage_at →
  ∀ (i : Z) (m : machine E),
    PKT_PIPELINE_MAX - i <= Z.of_nat fuel →
    run_stages stage_at fuel i m =
      run_in_order (registered_from stage_at m.1 i) m.
Proof.
  intros Hok. induction fuel as [| fuel IH]; intros i m Hfuel.
  - rewrite registered_from_nil by lia. done.
  - cbn [run_stages].
    destruct ((i <? pkt_stage_next m.1) && (i <? PKT_PIPELINE_MAX)) eqn:Hg.
    + apply guard_spec in Hg as [Hn Hmax].
      rewrite registered_from_cons by done.
      unfold process_at at 1.
      destruct (stage_slot m.1 i ≫= pi_stage) as [ps |]; cbn [run_in_order].
      * destruct (pp_process (stage_at ps)) as [process |] eqn:Hp.
        -- destruct (Hok ps process Hp) as [Hkeep Hint].
           rewrite (to_u32_eqb_0 _ (Hint i m)).
           destruct ((process i m).1 =? 0); [| done].
           rewrite IH by lia.
           by rewrite (registered_from_registry _ _ _ (Hkeep i m)).
        -- apply IH. lia.
      * apply IH. lia.
    + rewrite registered_from_nil; [done |].
      apply not_true_iff_false in Hg. rewrite guard_spec in Hg. lia.
Qed.

(** Fuel beyond the slots left changes nothing. *)
Lemma run_stages_fuel (fuel : nat) :
  ∀ (i : Z) (m : machine E),
    PKT_PIPELINE_MAX - i <= Z.of_nat fuel →
    run_stages stage_at (S fuel) i m = run_stages stage_at fuel i m.
Proof.
  induction fuel as [| fuel IH]; intros i m Hfuel.
  - cbn [run_stages].
    destruct ((i <? pkt_stage_next m.1) && (i <? PKT_PIPELINE_MAX)) eqn:Hg;
      [| done].
    apply guard_spec in Hg. lia.
  - change (run_stages stage_at (S (S fuel)) i m) with
      (if (i <? pkt_stage_next m.1) && (i <? PKT_PIPELINE_MAX) then
         match stage_slot m.1 i ≫= pi_stage with
         | Some ps =>
             match pp_process (stage_at ps) with
             | Some process =>
                 let r := process i m in
                 if to_u32 r.1 =? 0 then
                   ((i, r.1) :: (run_stages stage_at (S fuel) (i + 1) r.2).1,
                    (run_stages stage_at (S fuel) (i + 1) r.2).2)
                 else ([(i, r.1)], r.2)
             | None => run_stages stage_at (S fuel) (i + 1) m
             end
         | None => run_stages stage_at (S fuel) (i + 1) m
         end
       else ([], m)).
    cbn [run_stages] in IH |- *.
    destruct ((i <? pkt_stage_next m.1) && (i <? PKT_PIPELINE_MAX)); [| done].
    destruct (stage_slot m.1 i ≫= pi_stage) as [ps |]; [| apply IH; lia].
    destruct (pp_process (stage_at ps)) as [process |]; [| apply IH; lia].
    cbn zeta. destruct (to_u32 (process i m).1 =? 0); [| done].
    by rewrite IH by lia.
Qed.

(** Every logged index lies between the start of the loop and the
    capacity. *)
Lemma run_stages_bounds (fuel : nat) :
  ∀ (i : Z) (m : machine E) (x : Z * Z),
    x ∈ (run_stages stage_at fuel i m).1 → i <= x.1 < PKT_PIPELINE_MAX.
Proof.
  induction fuel as [| fuel IH]; intros i m x Hx; cbn [run_stages] in Hx.
  - by apply elem_of_nil in Hx.
  - destruct ((i <? pkt_stage_next m.1) && (i <? PKT_PIPELINE_MAX)) eqn:Hg;
      [| by apply elem_of_nil in Hx].
    apply guard_spec in Hg as [Hn Hmax].
    destruct (stage_slot m.1 i ≫= pi_stage) as [ps |];
      [| apply IH in Hx; lia].
    destruct (pp_process (stage_at ps)) as [process |];
      [| apply IH in Hx; lia].
    cbn zeta in Hx. destruct (to_u32 (process i m).1 =? 0); simpl in Hx.
    + apply elem_of_cons in Hx as [-> | Hx]; [simpl; lia |].
      apply IH in Hx. lia.
    + apply list_elem_of_singleton in Hx as ->. simpl. lia.
Qed.

(** The logged indices increase strictly. *)
Lemma run_stages_increasing (fuel : nat) :
  ∀ (i : Z) (m : machine E) (a b : nat) (x y : Z * Z),
    (run_stages stage_at fuel i m).1 !! a = Some x →
    (run_stages stage_at fuel i m).1 !! b = Some y →
    (a < b)%nat → x.1 < y.1.
Proof.
  induction fuel as [| fuel IH]; intros i m a b x y; cbn [run_stages].
  - done.
  - destruct ((i <? pkt_stage_next m.1) && (i <? PKT_PIPELINE_MAX)); [| done].
    destruct (stage_slot m.1 i ≫= pi_stage) as [ps |]; [| apply IH].
    destruct (pp_process (stage_at ps)) as [process |]; [| apply IH].
    cbn zeta. destruct (to_u32 (process i m).1 =? 0); simpl.
    + intros Ha Hb Hab. destruct b as [| b]; [lia |]. simpl in Hb.
      destruct a as [| a]; simpl in Ha.
      * injection Ha as <-. simpl.
        apply list_elem_of_lookup_2, run_stages_bounds in Hb. lia.
      * apply (IH _ _ a b x y Ha Hb). lia.
    + intros Ha Hb Hab. destruct b as [| b]; [lia |].
      destruct a; done.
Qed.

(** A logged non-zero code is the last entry of the log. *)
Lemma run_stages_stop (fuel : nat) :
  ∀ (i : Z) (m : machine E) (a : nat) (x : Z * Z),
    (run_stages stage_at fuel i m).1 !! a = Some x →
    to_u32 x.2 ≠ 0 →
    length (run_stages stage_at fuel i m).1 = S a.
Proof.
  induction fuel as [| fuel IH]; intros i m a x; cbn [run_stages].
  - done.
  - destruct ((i <? pkt_stage_next m.1) && (i <? PKT_PIPELINE_MAX)); [| done].
    destruct (stage_slot m.1 i ≫= pi_stage) as [ps |]; [| apply IH].
    destruct (pp_process (stage_at ps)) as [process |]; [| apply IH].
    cbn zeta. destruct (Z.eqb_spec (to_u32 (process i m).1) 0) as [Hz | Hnz];
      simpl.
    + destruct a as [| a]; simpl.
      * intros Ha. injection Ha as <-. done.
      * intros Ha Hx. f_equal. by apply (IH _ _ a x).
    + destruct a as [| a]; done.
Qed.

(** Every logged code is what a process operation returned. *)
Lemma run_stages_codes (fuel : nat) :
  processes_behave stage_at →
  ∀ (i : Z) (m : machine E) (x : Z * Z),
    x ∈ (run_stages stage_at fuel i m).1 → is_int x.2.
Proof.
  intros Hok. induction fuel as [| fuel IH]; intros i m x; cbn [run_stages].
  - intros Hx. by apply elem_of_nil in Hx.
  - destruct ((i <? pkt_stage_next m.1) && (i <? PKT_PIPELINE_MAX));
      [| intros Hx; by apply elem_of_nil in Hx].
    destruct (stage_slot m.1 i ≫= pi_stage) as [ps |]; [| apply IH].
    destruct (pp_process (stage_at ps)) as [process |] eqn:Hp; [| apply IH].
    destruct (Hok ps process Hp) as [_ Hint].
    cbn zeta. destruct (to_u32 (process i m).1 =? 0); simpl; intros Hx.
    + apply elem_of_cons in Hx as [-> | Hx]; [apply Hint | by apply IH in Hx].
    + apply list_elem_of_singleton in Hx as ->. apply Hint.
Qed.

End Loop.

(** ** The sample stages are well behaved *)

Lemma sample_inits_keep_registry : inits_keep_registry Sample.stage_at.
Proof.
  intros ps init Hinit.
  do 5 (destruct ps as [| ps];
        [try discriminate; injection Hinit as <-; intros i m; reflexivity |]).
  discriminate.
Qed.

Lemma sample_processes_behave : processes_behave Sample.stage_at.
Proof.
  intros ps process Hp.
  do 5 (destruct ps as [| ps];
        [first [discriminate
               | injection Hp as <-; split; intros i m;
                 [reflexivity | unfold is_int; simpl; lia]] |]).
  discriminate.
Qed.

(** ** Registration *)

(** C2: registering [n] stages, [n] at most [PKT_PIPELINE_MAX], into a fresh
    source hands out the indices 0, 1, ..., n-1 in registration order, each
    once; slot [j] then holds the [j]-th stage under number [j].  A
    registration into a registry that holds [PKT_PIPELINE_MAX] stages
    returns NULL and leaves the whole pipeline, stage count and instances
    included, as it was. *)
Theorem registration_assigns_indices {E : Type}
    (stage_at : stage_ref → pkt_pipeline_stage E)
    (l : list stage_ref) (e : E) :
  inits_keep_registry stage_at →
  (length l ≤ Z.to_nat PKT_PIPELINE_MAX)%nat →
  let r := add_all stage_at l (zero_pipeline, e) in
  r.1 = Some <$> seqZ 0 (Z.of_nat (length l))
  ∧ NoDup r.1
  ∧ pkt_stage_next r.2.1 = Z.of_nat (length l)
  ∧ (∀ j ps, l !! j = Some ps →
       ∃ pi, stage_slot r.2.1 (Z.of_nat j) = Some pi
             ∧ pi_stage pi = Some ps ∧ pi_stage_num pi = Z.of_nat j)
  ∧ (∀ ps (m : machine E), PKT_PIPELINE_MAX <= pkt_stage_next m.1 →
       pktdump_pipeline_add stage_at ps m = (None, m))
  ∧ (length l = Z.to_nat PKT_PIPELINE_MAX →
       ∀ ps, pktdump_pipeline_add stage_at ps r.2 = (None, r.2)).
Proof.
  intros Hinit Hlen r.
  destruct (add_all_registry stage_at l Hinit (zero_pipeline, e) 0)
    as (Hres & Hnext & Hslots & _ & _);
    [done | lia
     | cbn [fst pkt_stages zero_pipeline]; rewrite length_replicate; lia |].
  fold r in Hres, Hnext, Hslots. simpl in Hres, Hnext.
  cbn [Nat.add] in Hslots.
  split; [done |]. split.
  { rewrite Hres. apply (NoDup_fmap_2 _). apply NoDup_seqZ. }
  split; [done |]. split.
  { intros j ps Hj. specialize (Hslots j ps Hj).
    rewrite registry_lookup in Hslots. unfold stage_slot.
    rewrite Nat2Z.id.
    destruct (pkt_stages r.2.1 !! j) as [pi |]; [| done].
    exists pi. simpl in Hslots. split; [done |]. split; congruence. }
  split; [intros ps m; apply add_full |].
  intros Hfull ps. apply add_full. rewrite Hnext, Hfull.
  unfold PKT_PIPELINE_MAX. lia.
Qed.

Lemma registration_assigns_indices_witness :
  inits_keep_registry Sample.stage_at
  ∧ (length [0; 1; 2; 0]%nat ≤ Z.to_nat PKT_PIPELINE_MAX)%nat
  ∧ (add_all Sample.stage_at [0; 1; 2; 0]%nat Sample.start).1
    = [Some 0; Some 1; Some 2; Some 3].
Proof.
  split; [apply sample_inits_keep_registry |].
  split; [vm_compute; lia |].
  apply (registration_assigns_indices Sample.stage_at [0; 1; 2; 0]%nat 0).
  - apply sample_inits_keep_registry.
  - vm_compute; lia.
Defined.

(** C3: a stage whose init returns a negative code is registered all the
    same.  Registering the sample stage whose init returns -2 returns the
    instance at index 0 and counts the stage, and the next frame runs that
    stage's process operation. *)
Theorem failed_init_stays_registered :
  let r := pktdump_pipeline_add Sample.stage_at 3%nat Sample.start in
  (Sample.failing_init 0 Sample.start).1 = -2
  ∧ pp_init (Sample.stage_at 3%nat) = Some Sample.failing_init
  ∧ r.1 = Some 0
  ∧ pkt_stage_next r.2.1 = 1
  ∧ (stage_slot r.2.1 0 ≫= pi_stage) = Some 3%nat
  ∧ (pktdump_process_one Sample.stage_at Sample.hdr64 Sample.bytes64 r.2).1
    = [(0, 0)].
Proof. vm_compute. repeat split. Qed.

(** ** Stage execution *)

(** C1: the batch built for a frame goes through the described walk over
    the registered stages: indices 0, 1, 2, ... in registration order,
    stages without a process operation passed over, and nothing invoked
    after the first non-zero code; the resulting state is the one the last
    invoked stage left.  The indices of the calls increase strictly, a
    call that returned non-zero is the last one, and no call has a greater
    index than it. *)
Theorem stages_run_in_registration_order {E : Type}
    (stage_at : stage_ref → pkt_pipeline_stage E)
    (h : pcap_pkthdr) (bytes : list byte) (m : machine E) :
  processes_behave stage_at →
  let m0 := (set_master_list (build_batch h bytes) m.1, m.2) in
  let out := pktdump_process_one stage_at h bytes m in
  out = run_in_order (registered stage_at m0.1) m0
  ∧ (∀ a b x y, out.1 !! a = Some x → out.1 !! b = Some y →
       (a < b)%nat → x.1 < y.1)
  ∧ (∀ a x, out.1 !! a = Some x → x.2 ≠ 0 → length out.1 = S a)
  ∧ (∀ x y, x ∈ out.1 → y ∈ out.1 → x.2 ≠ 0 → y.1 <= x.1).
Proof.
  intros Hok m0 out.
  assert (Hout : out = run_stages stage_at (Z.to_nat PKT_PIPELINE_MAX) 0 m0)
    by apply process_one_run.
  clearbody out m0. subst out.
  set (out := run_stages stage_at (Z.to_nat PKT_PIPELINE_MAX) 0 m0).
  assert (Hstop : ∀ a x, out.1 !! a = Some x → x.2 ≠ 0 → length out.1 = S a).
  { intros a x Ha Hx. apply (run_stages_stop stage_at _ _ _ a x Ha).
    pose proof (run_stages_codes stage_at _ Hok _ _ x
                  (list_elem_of_lookup_2 _ _ _ Ha)) as Hint.
    pose proof (to_u32_eqb_0 _ Hint) as Heq.
    intros Hz. rewrite Hz in Heq. simpl in Heq. symmetry in Heq.
    apply Z.eqb_eq in Heq. done. }
  assert (Hinc : ∀ a b x y, out.1 !! a = Some x → out.1 !! b = Some y →
                   (a < b)%nat → x.1 < y.1)
    by apply run_stages_increasing.
  split; [| split; [done | split; [done |]]].
  - unfold out, registered.
    apply run_stages_described; [done |]. vm_compute. discriminate.
  - intros x y Hx Hy Hnz.
    apply list_elem_of_lookup in Hx as [a Ha].
    apply list_elem_of_lookup in Hy as [b Hb].
    pose proof (Hstop a x Ha Hnz) as Hlen.
    pose proof (lookup_lt_Some _ _ _ Hb) as Hlt.
    destruct (decide (b = a)) as [-> | Hne].
    + assert (x = y) as -> by congruence. lia.
    + pose proof (Hinc b a y x Hb Ha). lia.
Qed.

Lemma stages_run_in_registration_order_witness :
  processes_behave Sample.stage_at
  ∧ (pktdump_process_one Sample.stage_at Sample.hdr64 Sample.bytes64
       (add_all Sample.stage_at [0; 1; 2; 0]%nat Sample.start).2).1
    = [(0, 0); (2, -1)].
Proof.
  split; [apply sample_processes_behave |].
  pose proof (stages_run_in_registration_order Sample.stage_at
                Sample.hdr64 Sample.bytes64
                (add_all Sample.stage_at [0; 1; 2; 0]%nat Sample.start).2
                sample_processes_behave) as [Hrun _].
  rewrite Hrun. vm_compute. reflexivity.
Defined.

(** ** Dispatch *)

Section Dispatch.

Context {E : Type}.
Context (stage_at : stage_ref → pkt_pipeline_stage E).

Lemma dispatch_frames_nil (m : machine E) :
  dispatch_frames stage_at [] m = ([], m).
Proof. reflexivity. Qed.

Lemma dispatch_frames_cons (f : frame) (fs : list frame) (m : machine E) :
  dispatch_frames stage_at (f :: fs) m =
    ((pktdump_process_one stage_at (fr_hdr f) (fr_bytes f) m).1
       :: (dispatch_frames stage_at fs
             (pktdump_process_one stage_at (fr_hdr f) (fr_bytes f) m).2).1,
     (dispatch_frames stage_at fs
        (pktdump_process_one stage_at (fr_hdr f) (fr_bytes f) m).2).2).
Proof. reflexivity. Qed.

Lemma dispatch_frames_app (fs1 fs2 : list frame) :
  ∀ m : machine E,
    dispatch_frames stage_at (fs1 ++ fs2) m =
      ((dispatch_frames stage_at fs1 m).1
         ++ (dispatch_frames stage_at fs2 (dispatch_frames stage_at fs1 m).2).1,
       (dispatch_frames stage_at fs2 (dispatch_frames stage_at fs1 m).2).2).
Proof.
  induction fs1 as [| f fs1 IH]; intros m.
  - rewrite app_nil_l, dispatch_frames_nil. cbn [app fst snd].
    by destruct (dispatch_frames stage_at fs2 m).
  - rewrite <- app_comm_cons, !dispatch_frames_cons, IH. reflexivity.
Qed.

Lemma dispatch_frames_length (fs : list frame) :
  ∀ m : machine E, length (dispatch_frames stage_at fs m).1 = length fs.
Proof.
  induction fs as [| f fs IH]; intros m; [reflexivity |].
  rewrite dispatch_frames_cons. cbn [fst length]. by rewrite IH.
Qed.

(** A loop entered at a registered stage with a process operation calls
    that stage first. *)
Lemma run_stages_first (fuel : nat) (i : Z) (m : machine E) (process : stage_op E) :
  i < pkt_stage_next m.1 → i < PKT_PIPELINE_MAX →
  process_at stage_at m.1 i = Some process →
  (run_stages stage_at (S fuel) i m).1 !! 0%nat = Some (i, (process i m).1).
Proof.
  intros Hn Hmax Hp. cbn [run_stages].
  destruct ((i <? pkt_stage_next m.1) && (i <? PKT_PIPELINE_MAX)) eqn:Hg.
  - unfold process_at in Hp.
    destruct (stage_slot m.1 i ≫= pi_stage) as [ps |]; [| done].
    rewrite Hp. cbn zeta. by destruct (to_u32 (process i m).1 =? 0).
  - apply not_true_iff_false in Hg. rewrite guard_spec in Hg. lia.
Qed.

End Dispatch.

(** Three frames through a pipeline whose third stage rejects each of
    them: every frame is processed from stage 0 on, and the run succeeds. *)
Example rejected_frames_do_not_stop_dispatch :
  let m := (add_all Sample.stage_at [0; 1; 2; 0]%nat Sample.start).2 in
  pcap_dispatch Sample.stage_at Sample.capture3 m
  = (3, ([[(0, 0); (2, -1)]; [(0, 0); (2, -1)]; [(0, 0); (2, -1)]],
         (set_master_list (build_batch Sample.hdr64 Sample.bytes64) m.1, 303))).
Proof. vm_compute. reflexivity. Qed.

(** ** Descriptor construction *)

Lemma clamp_caplen_le (c : Z) : clamp_caplen c <= CAPLEN_MAX.
Proof. unfold clamp_caplen. destruct (Z.gtb_spec c CAPLEN_MAX); lia. Qed.

Lemma clamp_caplen_id (c : Z) : c <= CAPLEN_MAX → clamp_caplen c = c.
Proof. intros Hc. unfold clamp_caplen. destruct (Z.gtb_spec c CAPLEN_MAX); lia. Qed.

Lemma buffer_at_written (b : capture_buffer) (off : Z) :
  is_Some (buffer_at b off) ↔
    PAYLOAD_OFFSET <= off < PAYLOAD_OFFSET + Z.of_nat (length (cb_payload b)).
Proof.
  unfold buffer_at. destruct (Z.leb_spec PAYLOAD_OFFSET off) as [Hle | Hlt].
  - rewrite lookup_lt_is_Some. lia.
  - split; [intros [x Hx]; done | lia].
Qed.

Lemma exposed_bytes_payload (b : capture_buffer) :
  tp_mac (cb_hdr b) = PAYLOAD_OFFSET →
  tp_snaplen (cb_hdr b) = Z.of_nat (length (cb_payload b)) →
  exposed_bytes b = Some <$> cb_payload b.
Proof.
  intros Hmac Hlen. unfold exposed_bytes. rewrite Hmac, Hlen.
  apply list_eq. intros k. rewrite !list_lookup_fmap.
  destruct (cb_payload b !! k) as [x |] eqn:Hk.
  - pose proof (lookup_lt_Some _ _ _ Hk) as Hlt.
    rewrite lookup_seqZ_lt by lia. simpl. unfold buffer_at.
    destruct (Z.leb_spec PAYLOAD_OFFSET (PAYLOAD_OFFSET + (0 + Z.of_nat k)));
      [| lia].
    replace (Z.to_nat (PAYLOAD_OFFSET + (0 + Z.of_nat k) - PAYLOAD_OFFSET))
      with k by lia.
    by rewrite Hk.
  - apply lookup_ge_None in Hk. by rewrite lookup_seqZ_ge by lia.
Qed.

(** C6, as corrected: a frame whose captured length is at most 65536 and
    whose timestamp fits the 32-bit fields of the header is described
    unchanged: timestamp, captured length and original length are those of
    the frame, the offset is 2048, and the descriptor exposes exactly the
    frame's bytes, which occupy offsets 2048 to 2048 + captured length of
    the buffer. *)
Theorem descriptor_describes_frame (h : pcap_pkthdr) (bytes : list byte) :
  0 <= caplen h <= CAPLEN_MAX →
  length bytes = Z.to_nat (caplen h) →
  0 <= tv_sec (ts h) < 2 ^ 32 →
  0 <= tv_usec (ts h) < 2 ^ 32 →
  let b := pkt_pipeline_hdr_ (build_descriptor h bytes) in
  pkt_list (build_batch h bytes) = [Some (build_descriptor h bytes)]
  ∧ tp_sec (cb_hdr b) = tv_sec (ts h)
  ∧ tp_nsec (cb_hdr b) = tv_usec (ts h)
  ∧ tp_snaplen (cb_hdr b) = caplen h
  ∧ tp_len (cb_hdr b) = len h
  ∧ tp_mac (cb_hdr b) = PAYLOAD_OFFSET
  ∧ exposed_bytes b = Some <$> bytes
  ∧ (∀ off, is_Some (buffer_at b off) ↔
       PAYLOAD_OFFSET <= off < PAYLOAD_OFFSET + caplen h).
Proof.
  intros Hcap Hlen Hsec Hnsec b.
  assert (Hpay : cb_payload b = bytes).
  { simpl. rewrite clamp_caplen_id by lia. apply take_ge. lia. }
  split; [done |]. split; [by apply to_u32_small |].
  split; [by apply to_u32_small |].
  split; [simpl; apply clamp_caplen_id; lia |].
  split; [done |]. split; [done |]. split.
  - transitivity (Some <$> cb_payload b); [| by rewrite Hpay].
    apply exposed_bytes_payload; [done |].
    rewrite Hpay. simpl. rewrite clamp_caplen_id; lia.
  - intros off. rewrite buffer_at_written, Hpay. lia.
Qed.

Lemma descriptor_describes_frame_witness :
  let b := pkt_pipeline_hdr_ (build_descriptor Sample.hdr64 Sample.bytes64) in
  (tp_sec (cb_hdr b), tp_nsec (cb_hdr b)) = (10, 500)
  ∧ tp_snaplen (cb_hdr b) = 64
  ∧ tp_len (cb_hdr b) = 128
  ∧ tp_mac (cb_hdr b) = 2048
  ∧ exposed_bytes b = Some <$> Sample.bytes64
  ∧ (∀ off, is_Some (buffer_at b off) ↔ 2048 <= off < 2048 + 64).
Proof.
  intros b.
  destruct (descriptor_describes_frame Sample.hdr64 Sample.bytes64)
    as (_ & Hs & Hn & Hc & Hl & Hm & He & Hr);
    [vm_compute; split; discriminate | reflexivity | vm_compute; done
     | vm_compute; done |].
  fold b in Hs, Hn, Hc, Hl, Hm, He, Hr.
  split; [by rewrite Hs, Hn |].
  split; [exact Hc |]. split; [exact Hl |]. split; [exact Hm |].
  split; [exact He | exact Hr].
Defined.

(** The clamp at work: a frame reported with 70000 captured bytes is
    described with a captured length of 65536. *)
Lemma long_frame_is_clamped :
  caplen Sample.hdr_big = 70000
  ∧ tp_snaplen (build_hdr Sample.hdr_big) = 65536
  ∧ ¬ (tp_snaplen (build_hdr Sample.hdr_big) = caplen Sample.hdr_big).
Proof. vm_compute. repeat split. discriminate. Qed.

(** C7: whatever captured length the frame reports, the stored one is at
    most 65536, so offset plus captured length stays within [buffer1], and
    so does every byte written. *)
Theorem captured_length_fits_buffer (h : pcap_pkthdr) (bytes : list byte) :
  let b := pkt_pipeline_hdr_ (build_descriptor h bytes) in
  tp_mac (cb_hdr b) = 2048
  ∧ tp_snaplen (cb_hdr b) <= 65536
  ∧ tp_mac (cb_hdr b) + tp_snaplen (cb_hdr b) <= BUFFER1_SIZE
  ∧ (∀ off, is_Some (buffer_at b off) → 0 <= off < BUFFER1_SIZE).
Proof.
  intros b. pose proof (clamp_caplen_le (caplen h)) as Hle.
  unfold CAPLEN_MAX in Hle.
  split; [done |]. split; [done |].
  split; [simpl; unfold PAYLOAD_OFFSET, BUFFER1_SIZE; lia |].
  intros off Hoff. apply buffer_at_written in Hoff.
  simpl in Hoff. rewrite length_take in Hoff.
  unfold PAYLOAD_OFFSET, BUFFER1_SIZE in *. lia.
Qed.

(** ** Opening and closing a source *)

Section Lifecycle.

Context {E : Type}.
Context (stage_at : stage_ref → pkt_pipeline_stage E).

Lemma free_live (p : addr) (src : pkt_pipeline_source) (st : process_state E) :
  st_heap st !! p = Some src →
  free p st = Returns () (set_heap (delete p (st_heap st)) st).
Proof. intros Hp. unfold free. by rewrite Hp. Qed.

Lemma free_dead (p : addr) (st : process_state E) :
  st_heap st !! p = None → free p st = Undefined.
Proof. intros Hp. unfold free. by rewrite Hp. Qed.

(** [pktdump_finish] returns 1 whenever it returns. *)
Lemma finish_returns_1 (pps : option addr) (st st' : process_state E) (a : Z) :
  pktdump_finish pps st = Returns a st' → a = 1.
Proof.
  unfold pktdump_finish, free.
  destruct pps as [p |]; [destruct (st_heap st !! p) |]; simpl; congruence.
Qed.

(** Once [malloc] has succeeded, [pktdump_inputsource] returns: the new
    source with the link type of the capture recorded and the handle
    stored, or NULL with the library's message in [ebuf] and the block
    freed again. *)
Lemma inputsource_after_malloc (p : addr)
    (open_result : string → handle * pcap_t + string)
    (file ebuf : string) (st : process_state E) :
  st_heap st !! p = None →
  match open_result file with
  | inl (hd, cap) =>
      ∃ st', pktdump_inputsource (Some p) open_result file ebuf st
             = Returns (Some p, ebuf) st'
             ∧ (pkt_datalink ∘ ps_pipeline) <$> st_heap st' !! p
               = Some (pcap_linktype cap)
             ∧ ps_pcap_reader <$> st_heap st' !! p = Some (Some hd)
             ∧ st_pcap st' !! hd = Some cap
  | inr msg =>
      pktdump_inputsource (Some p) open_result file ebuf st
      = Returns (None, msg) st
  end.
Proof.
  intros Hfresh. unfold pktdump_inputsource.
  destruct (open_result file) as [[hd cap] | msg].
  - eexists. split; [done |]. simpl.
    rewrite !lookup_insert_eq. done.
  - unfold free. simpl. rewrite lookup_insert_eq. simpl.
    unfold set_heap. simpl. rewrite delete_insert_eq.
    rewrite delete_id by done. by destruct st.
Qed.

(** [pktdump_runpipeline] on an open source returns, with one call log
    per frame; at the end of the file its result is 0. *)
Lemma runpipeline_returns (p : addr) (src : pkt_pipeline_source)
    (hd : handle) (cap : pcap_t) (st : process_state E) :
  st_heap st !! p = Some src →
  ps_pcap_reader src = Some hd →
  st_pcap st !! hd = Some cap →
  ∃ code logs st',
    pktdump_runpipeline stage_at p st = Returns (code, logs) st'
    ∧ is_Some (st_heap st' !! p)
    ∧ length logs = length (pcap_pending cap)
    ∧ (pcap_end cap = EndOfFile → code = 0).
Proof.
  intros Hp Hr Hc. unfold pktdump_runpipeline.
  rewrite Hp, Hr. simpl. rewrite Hc. simpl.
  assert (Hcode : pcap_end cap = EndOfFile →
                  (dispatch_result cap =? -2) = false
                  ∧ (dispatch_result cap =? -1) = false).
  { intros Hend. unfold dispatch_result. rewrite Hend.
    split; apply Z.eqb_neq; lia. }
  destruct (dispatch_result cap =? -2) eqn:H2;
    [| destruct (dispatch_result cap =? -1) eqn:H1];
    do 3 eexists;
    (split; [done |]);
    (split; [simpl; rewrite lookup_insert_eq; by eexists |]);
    (split; [apply dispatch_frames_length |]);
    intros Hend; destruct (Hcode Hend); congruence.
Qed.

End Lifecycle.

(** [pktdump_finish] frees the block of a live source, and is a no-op for
    a NULL source. *)
Lemma finish_frees_source {E : Type} (p : addr) (src : pkt_pipeline_source)
    (st : process_state E) :
  st_heap st !! p = Some src →
  pktdump_finish None st = Returns 1 st
  ∧ pktdump_finish (Some p) st
    = Returns 1 (set_heap (delete p (st_heap st)) st)
  ∧ st_heap (set_heap (delete p (st_heap st)) st) !! p = None.
Proof.
  intros Hp. split; [done |]. split.
  - unfold pktdump_finish. by rewrite (free_live p src).
  - simpl. apply lookup_delete_eq.
Qed.

(** C8: [pktdump_finish] frees the source and leaves its capture handle
    open.  After "three.pcap" has been opened and closed again the block of
    the source is gone, no block is left that refers to handle 7, and the
    handle is as open as it was: nothing released it. *)
Theorem finish_leaks_capture_handle :
  pktdump_inputsource (Some 4096) Sample.open_capture3 "three.pcap" ""
    Sample.boot = Returns (Some 4096, ""%string) Sample.opened
  ∧ ps_pcap_reader <$> st_heap Sample.opened !! 4096 = Some (Some 7)
  ∧ st_pcap Sample.opened !! 7 = Some Sample.capture3
  ∧ pktdump_finish (Some 4096) Sample.opened = Returns 1 Sample.finished
  ∧ st_heap Sample.finished = ∅
  ∧ st_pcap Sample.finished !! 7 = Some Sample.capture3.
Proof. vm_compute. repeat split. Qed.

(** C9: when [malloc] fails, [pktdump_inputsource] does not return NULL: it
    clears the block through the null pointer. *)
Theorem inputsource_malloc_failure {E : Type}
    (open_result : string → handle * pcap_t + string)
    (file ebuf : string) (st : process_state E) :
  pktdump_inputsource None open_result file ebuf st = Undefined
  ∧ pktdump_inputsource None open_result file ebuf st
    ≠ Returns (None, ebuf) st.
Proof. split; [reflexivity | discriminate]. Qed.

(** C10: [pktdump_finish] returns 1, for a NULL source and for a live one,
    and never anything else; [main], which exits with the last value
    assigned to [ret], therefore exits with status 1 once a source was
    opened, also when the run reached the end of the file and
    [pktdump_runpipeline] returned 0. *)
Theorem finish_result_is_exit_status {E : Type}
    (stage_at : stage_ref → pkt_pipeline_stage E)
    (p : addr) (src : pkt_pipeline_source) (hd : handle) (cap : pcap_t)
    (st : process_state E) :
  st_heap st !! p = Some src →
  ps_pcap_reader src = Some hd →
  st_pcap st !! hd = Some cap →
  pktdump_finish None st = Returns 1 st
  ∧ (∃ st', pktdump_finish (Some p) st = Returns 1 st')
  ∧ (∀ pps a st', pktdump_finish pps st = Returns a st' → a = 1)
  ∧ (pcap_end cap = EndOfFile →
       ∃ logs st', pktdump_runpipeline stage_at p st = Returns (0, logs) st')
  ∧ (∃ st', main_after_options stage_at (Some p) st = Returns (Some 1) st').
Proof.
  intros Hp Hr Hc.
  destruct (runpipeline_returns stage_at p src hd cap st Hp Hr Hc)
    as (code & logs & st1 & Hrun & [src1 Hlive] & _ & Hcode).
  split; [done |]. split.
  { eexists. unfold pktdump_finish. by rewrite (free_live p src). }
  split; [intros pps a st'; apply finish_returns_1 |]. split.
  { intros Hend. exists logs, st1. by rewrite Hrun, (Hcode Hend). }
  unfold main_after_options. rewrite Hrun. simpl.
  unfold pktdump_finish. rewrite (free_live p src1) by done. simpl.
  by eexists.
Qed.

Lemma finish_result_is_exit_status_witness :
  st_heap Sample.opened !! 4096 = Some Sample.source3
  ∧ ps_pcap_reader Sample.source3 = Some 7
  ∧ st_pcap Sample.opened !! 7 = Some Sample.capture3
  ∧ pcap_end Sample.capture3 = EndOfFile
  ∧ ∃ st', main_after_options Sample.stage_at (Some 4096) Sample.opened
           = Returns (Some 1) st'.
Proof.
  repeat (split; [reflexivity |]).
  apply (finish_result_is_exit_status Sample.stage_at 4096 Sample.source3 7
           Sample.capture3 Sample.opened); reflexivity.
Defined.


(** * Further properties *)

(** ** The stage loop at its edges *)

Section LoopEdges.

Context {E : Type}.
Context (stage_at : stage_ref → pkt_pipeline_stage E).

Lemma run_stages_length (fuel : nat) :
  ∀ (i : Z) (m : machine E),
    (length (run_stages stage_at fuel i m).1 ≤ fuel)%nat.
Proof.
  induction fuel as [| fuel IH]; intros i m; cbn [run_stages]; [done |].
  destruct ((i <? pkt_stage_next m.1) && (i <? PKT_PIPELINE_MAX));
    [| simpl; lia].
  destruct (stage_slot m.1 i ≫= pi_stage) as [ps |];
    [| specialize (IH (i + 1) m); lia].
  destruct (pp_process (stage_at ps)) as [process |];
    [| specialize (IH (i + 1) m); lia].
  cbn zeta. destruct (to_u32 (process i m).1 =? 0); simpl; [| lia].
  specialize (IH (i + 1) (process i m).2). lia.
Qed.

(** A loop that called no stage left the machine as it found it. *)
Lemma run_stages_silent (fuel : nat) :
  ∀ (i : Z) (m : machine E),
    (run_stages stage_at fuel i m).1 = [] →
    (run_stages stage_at fuel i m).2 = m.
Proof.
  induction fuel as [| fuel IH]; intros i m; cbn [run_stages]; [done |].
  destruct ((i <? pkt_stage_next m.1) && (i <? PKT_PIPELINE_MAX)); [| done].
  destruct (stage_slot m.1 i ≫= pi_stage) as [ps |]; [| apply IH].
  destruct (pp_process (stage_at ps)) as [process |]; [| apply IH].
  cbn zeta. by destruct (to_u32 (process i m).1 =? 0).
Qed.

(** Stages that keep the registry keep it over a whole loop. *)
Lemma run_stages_registry (fuel : nat) :
  processes_behave stage_at →
  ∀ (i : Z) (m : machine E),
    registry (run_stages stage_at fuel i m).2.1 = registry m.1.
Proof.
  intros Hok. induction fuel as [| fuel IH]; intros i m; cbn [run_stages];
    [done |].
  destruct ((i <? pkt_stage_next m.1) && (i <? PKT_PIPELINE_MAX)); [| done].
  destruct (stage_slot m.1 i ≫= pi_stage) as [ps |]; [| apply IH].
  destruct (pp_process (stage_at ps)) as [process |] eqn:Hp; [| apply IH].
  destruct (Hok ps process Hp) as [Hkeep _].
  cbn zeta. destruct (to_u32 (process i m).1 =? 0); simpl; [| apply Hkeep].
  rewrite IH. apply Hkeep.
Qed.

(** A loop entered at or beyond the stage count calls nothing. *)
Lemma run_stages_none (fuel : nat) (i : Z) (m : machine E) :
  pkt_stage_next m.1 <= i → run_stages stage_at fuel i m = ([], m).
Proof.
  intros Hi. destruct fuel as [| fuel]; [reflexivity |].
  rewrite run_stages_S.
  destruct ((i <? pkt_stage_next m.1) && (i <? PKT_PIPELINE_MAX)) eqn:Hg;
    [| reflexivity].
  apply guard_spec in Hg. lia.
Qed.

(** A pipeline of one stage: the loop is one call of its process
    operation. *)
Lemma run_stages_single (fuel : nat) (m : machine E) (process : stage_op E) :
  pkt_stage_next m.1 = 1 →
  process_at stage_at m.1 0 = Some process →
  pkt_stage_next (process 0 m).2.1 = 1 →
  run_stages stage_at (S (S fuel)) 0 m
  = ([(0, (process 0 m).1)], (process 0 m).2).
Proof.
  intros Hnext Hp Hnext'. rewrite run_stages_S, Hnext.
  change ((0 <? 1) && (0 <? PKT_PIPELINE_MAX)) with true. cbv match.
  unfold process_at in Hp.
  destruct (stage_slot m.1 0 ≫= pi_stage) as [ps |]; [| done].
  rewrite Hp. destruct (to_u32 (process 0 m).1 =? 0); [| reflexivity].
  rewrite run_stages_none by (rewrite Hnext'; lia). reflexivity.
Qed.

(** The operations in the list of registered stages are those of the stage
    table. *)
Lemma registered_from_table (pp : pkt_pipeline) (i j : Z) (process : stage_op E) :
  (j, Some process) ∈ registered_from stage_at pp i →
  ∃ ps, pp_process (stage_at ps) = Some process.
Proof.
  unfold registered_from. intros Hin.
  apply list_elem_of_fmap in Hin as (k & Heq & _).
  injection Heq as _ Hp. unfold process_at in Hp.
  destruct (stage_slot pp k ≫= pi_stage) as [ps |]; [| done].
  by exists ps.
Qed.

(** The walk over stages that all return 0 calls each of them. *)
Lemma run_in_order_all_zero (l : list (Z * option (stage_op E))) :
  (∀ j process, (j, Some process) ∈ l → ∀ i m, (process i m).1 = 0) →
  ∀ m : machine E,
    (run_in_order l m).1 = (λ s, (s.1, 0)) <$> filter (λ s, is_Some s.2) l.
Proof.
  induction l as [| [j [process |]] l IH]; intros Hzero m;
    cbn [run_in_order]; [done | |].
  - rewrite filter_cons_True by (simpl; eauto).
    rewrite (Hzero j process) by left. simpl.
    f_equal. apply IH. intros j' p' Hin. apply (Hzero j' p'). by right.
  - rewrite filter_cons_False by (simpl; intros [? ?]; done).
    apply IH. intros j' p' Hin. apply (Hzero j' p'). by right.
Qed.

End LoopEdges.

(** Fuel beyond the slots left, however much, changes nothing. *)
Lemma run_stages_more_fuel {E : Type}
    (stage_at : stage_ref → pkt_pipeline_stage E) (extra fuel : nat) :
  ∀ (i : Z) (m : machine E),
    PKT_PIPELINE_MAX - i <= Z.of_nat fuel →
    run_stages stage_at (fuel + extra) i m = run_stages stage_at fuel i m.
Proof.
  induction extra as [| extra IH]; intros i m Hfuel.
  - by rewrite Nat.add_0_r.
  - rewrite Nat.add_succ_r, run_stages_fuel by lia. by apply IH.
Qed.

(** X1: the stage loop ends by its own guard.  Run for any number of
    rounds from 8 on, it gives what [pktdump_process_one] gives: at most
    [PKT_PIPELINE_MAX] calls of a process operation, each at an index from
    0 to 7, whatever [pkt_stage_next] holds, however long the stage array is
    taken to be, and whatever the stages do. *)
Theorem process_one_ends_by_its_guard {E : Type}
    (stage_at : stage_ref → pkt_pipeline_stage E)
    (h : pcap_pkthdr) (bytes : list byte) (m : machine E) (fuel : nat) :
  (Z.to_nat PKT_PIPELINE_MAX ≤ fuel)%nat →
  let m0 := (set_master_list (build_batch h bytes) m.1, m.2) in
  let out := pktdump_process_one stage_at h bytes m in
  run_stages stage_at fuel 0 m0 = out
  ∧ (length (run_stages stage_at fuel 0 m0).1 ≤ 8)%nat
  ∧ ∀ x, x ∈ (run_stages stage_at fuel 0 m0).1 → 0 <= x.1 < 8.
Proof.
  intros Hfuel m0 out.
  assert (Hout : out = run_stages stage_at (Z.to_nat PKT_PIPELINE_MAX) 0 m0)
    by apply process_one_run.
  clearbody out. subst out.
  assert (Hsame : run_stages stage_at fuel 0 m0
                  = run_stages stage_at (Z.to_nat PKT_PIPELINE_MAX) 0 m0).
  { replace fuel
      with (Z.to_nat PKT_PIPELINE_MAX + (fuel - Z.to_nat PKT_PIPELINE_MAX))%nat
      by lia.
    apply run_stages_more_fuel. unfold PKT_PIPELINE_MAX. lia. }
  split; [exact Hsame |]. split.
  - rewrite Hsame.
    apply (run_stages_length stage_at (Z.to_nat PKT_PIPELINE_MAX)).
  - intros x Hx. by apply run_stages_bounds in Hx.
Qed.

Lemma process_one_ends_by_its_guard_witness :
  (Z.to_nat PKT_PIPELINE_MAX ≤ 20)%nat
  ∧ (run_stages Sample.stage_at 20 0
       (set_master_list (build_batch Sample.hdr64 Sample.bytes64)
          GuardSample.overfull.1, GuardSample.overfull.2)).1
    = [(0, 0); (1, 0); (2, 0); (3, 0); (4, 0); (5, 0); (6, 0); (7, 0)].
Proof.
  assert (Hfuel : (Z.to_nat PKT_PIPELINE_MAX ≤ 20)%nat) by (vm_compute; lia).
  split; [exact Hfuel |].
  destruct (process_one_ends_by_its_guard Sample.stage_at Sample.hdr64
              Sample.bytes64 GuardSample.overfull 20 Hfuel) as (Hrun & _).
  rewrite Hrun. vm_compute. reflexivity.
Defined.

(** X2: when a dispatch cycle called no stage, installing the batch is all
    it did; this is so when no stage is registered. *)
Theorem process_one_without_calls {E : Type}
    (stage_at : stage_ref → pkt_pipeline_stage E)
    (h : pcap_pkthdr) (bytes : list byte) (m : machine E) :
  let out := pktdump_process_one stage_at h bytes m in
  (out.1 = [] → out.2 = (set_master_list (build_batch h bytes) m.1, m.2))
  ∧ (pkt_stage_next m.1 <= 0 → out.1 = []).
Proof.
  intros out.
  assert (Hout : out = run_stages stage_at (Z.to_nat PKT_PIPELINE_MAX) 0
                         (set_master_list (build_batch h bytes) m.1, m.2))
    by apply process_one_run.
  clearbody out. subst out. split.
  - apply run_stages_silent.
  - intros Hnone. by rewrite run_stages_none.
Qed.

(** X3: stages that leave the registry alone leave it alone over a whole
    dispatch: after any number of frames the stage count and the stage of
    every slot are those registered. *)
Theorem dispatch_keeps_registry {E : Type}
    (stage_at : stage_ref → pkt_pipeline_stage E)
    (fs : list frame) (m : machine E) :
  processes_behave stage_at →
  registry (dispatch_frames stage_at fs m).2.1 = registry m.1.
Proof.
  intros Hok. revert m. induction fs as [| f fs IH]; intros m; [done |].
  rewrite dispatch_frames_cons. cbn [snd]. rewrite IH, process_one_run.
  by rewrite run_stages_registry.
Qed.

Lemma dispatch_keeps_registry_witness :
  processes_behave Sample.stage_at
  ∧ registry (dispatch_frames Sample.stage_at
                [Sample.frame64; Sample.frame64]
                (add_all Sample.stage_at [0; 4; 2]%nat Sample.start).2).2.1
    = registry (add_all Sample.stage_at [0; 4; 2]%nat Sample.start).2.1.
Proof.
  split; [apply sample_processes_behave |].
  apply (dispatch_keeps_registry Sample.stage_at). apply sample_processes_behave.
Defined.

(** ** Registration beyond the capacity *)

Section Saturation.

Context {E : Type}.
Context (stage_at : stage_ref → pkt_pipeline_stage E).

Lemma add_all_app (l1 l2 : list stage_ref) :
  ∀ m : machine E,
    add_all stage_at (l1 ++ l2) m =
      ((add_all stage_at l1 m).1 ++ (add_all stage_at l2 (add_all stage_at l1 m).2).1,
       (add_all stage_at l2 (add_all stage_at l1 m).2).2).
Proof.
  induction l1 as [| ps l1 IH]; intros m; simpl.
  - by destruct (add_all stage_at l2 m).
  - by rewrite IH.
Qed.

Lemma add_all_full (l : list stage_ref) :
  ∀ m : machine E,
    PKT_PIPELINE_MAX <= pkt_stage_next m.1 →
    add_all stage_at l m = (replicate (length l) None, m).
Proof.
  induction l as [| ps l IH]; intros m Hfull; simpl; [done |].
  rewrite add_full by done. simpl. by rewrite IH.
Qed.

End Saturation.

Lemma registration_assigns_indices_aux {E : Type}
    (stage_at : stage_ref → pkt_pipeline_stage E)
    (l : list stage_ref) (e : E) :
  inits_keep_registry stage_at →
  (length l ≤ Z.to_nat PKT_PIPELINE_MAX)%nat →
  (add_all stage_at l (zero_pipeline, e)).1
    = Some <$> seqZ 0 (Z.of_nat (length l))
  ∧ pkt_stage_next (add_all stage_at l (zero_pipeline, e)).2.1
    = Z.of_nat (length l).
Proof.
  intros Hinit Hlen.
  destruct (add_all_registry stage_at l Hinit (zero_pipeline, e) 0)
    as (Hres & Hnext & _);
    [done | lia
     | cbn [fst pkt_stages zero_pipeline]; rewrite length_replicate; lia |].
  split; [exact Hres | exact Hnext].
Qed.

(** X5: a run of registrations of any length into a fresh source: the
    first [PKT_PIPELINE_MAX] get the indices 0 to 7, every later one gets
    NULL, and the stage count ends as the smaller of the length and the
    capacity; the refused registrations change nothing. *)
Theorem registration_saturates {E : Type}
    (stage_at : stage_ref → pkt_pipeline_stage E)
    (l : list stage_ref) (e : E) :
  inits_keep_registry stage_at →
  let r := add_all stage_at l (zero_pipeline, e) in
  r.1 = (Some <$> seqZ 0 (Z.min (Z.of_nat (length l)) PKT_PIPELINE_MAX))
          ++ replicate (length l - Z.to_nat PKT_PIPELINE_MAX) None
  ∧ pkt_stage_next r.2.1 = Z.min (Z.of_nat (length l)) PKT_PIPELINE_MAX
  ∧ r.2 = (add_all stage_at (take (Z.to_nat PKT_PIPELINE_MAX) l)
             (zero_pipeline, e)).2.
Proof.
  intros Hinit r.
  set (n := Z.to_nat PKT_PIPELINE_MAX).
  assert (Hr : r = add_all stage_at (take n l ++ drop n l) (zero_pipeline, e))
    by by rewrite take_drop.
  rewrite add_all_app in Hr.
  pose proof (length_take l n) as Hlt.
  destruct (registration_assigns_indices_aux stage_at (take n l) e Hinit)
    as (Hres & Hnext); [unfold n in *; lia |].
  set (r1 := add_all stage_at (take n l) (zero_pipeline, e)) in *.
  destruct (decide (length l ≤ n)%nat) as [Hshort | Hlong].
  - assert (Hd : drop n l = []) by (apply drop_ge; lia).
    rewrite Hd in Hr. simpl in Hr.
    assert (Hlen : length (take n l) = length l) by lia.
    rewrite Hr. simpl. rewrite Hres, Hnext, Hlen.
    replace (length l - n)%nat with 0%nat by lia. simpl.
    replace (Z.min (Z.of_nat (length l)) PKT_PIPELINE_MAX)
      with (Z.of_nat (length l)) by (unfold n, PKT_PIPELINE_MAX in *; lia).
    by rewrite !app_nil_r.
  - rewrite add_all_full in Hr
      by (rewrite Hnext; unfold n, PKT_PIPELINE_MAX in *; lia).
    rewrite Hr. simpl. rewrite Hres, Hnext, length_drop.
    replace (Z.of_nat (length (take n l))) with PKT_PIPELINE_MAX
      by (unfold n, PKT_PIPELINE_MAX in *; lia).
    replace (Z.min (Z.of_nat (length l)) PKT_PIPELINE_MAX)
      with PKT_PIPELINE_MAX by (unfold n, PKT_PIPELINE_MAX in *; lia).
    done.
Qed.

(** ** The adapter at its edges *)

(** X6: a frame reported with more than 65536 captured bytes is cut: the
    descriptor carries captured length 65536 and exposes exactly the first
    65536 bytes of the frame, which fill [buffer1] from offset 2048 to its
    end; the original length is kept as reported. *)
Theorem long_frame_truncated (h : pcap_pkthdr) (bytes : list byte) :
  CAPLEN_MAX < caplen h →
  (Z.to_nat CAPLEN_MAX ≤ length bytes)%nat →
  let b := pkt_pipeline_hdr_ (build_descriptor h bytes) in
  tp_snaplen (cb_hdr b) = CAPLEN_MAX
  ∧ tp_len (cb_hdr b) = len h
  ∧ exposed_bytes b = Some <$> take (Z.to_nat CAPLEN_MAX) bytes
  ∧ (∀ off, is_Some (buffer_at b off) ↔ PAYLOAD_OFFSET <= off < BUFFER1_SIZE).
Proof.
  intros Hlong Hlen b.
  assert (Hclamp : clamp_caplen (caplen h) = CAPLEN_MAX).
  { unfold clamp_caplen. destruct (Z.gtb_spec (caplen h) CAPLEN_MAX); lia. }
  assert (Hpay : cb_payload b = take (Z.to_nat CAPLEN_MAX) bytes)
    by (simpl; by rewrite Hclamp).
  assert (Hplen : length (cb_payload b) = Z.to_nat CAPLEN_MAX)
    by (rewrite Hpay, length_take; lia).
  split; [exact Hclamp |]. split; [done |]. split.
  - rewrite <- Hpay. apply exposed_bytes_payload; [done |].
    rewrite Hplen. simpl. rewrite Hclamp. unfold CAPLEN_MAX. lia.
  - intros off. rewrite buffer_at_written, Hplen.
    unfold PAYLOAD_OFFSET, BUFFER1_SIZE, CAPLEN_MAX. lia.
Qed.

Lemma long_frame_truncated_witness :
  CAPLEN_MAX < caplen Sample.hdr_big
  ∧ tp_snaplen
      (cb_hdr (pkt_pipeline_hdr_
                 (build_descriptor Sample.hdr_big
                    (replicate (Z.to_nat 70000) x2a)))) = 65536.
Proof.
  split; [reflexivity |].
  apply (long_frame_truncated Sample.hdr_big (replicate (Z.to_nat 70000) x2a)).
  - reflexivity.
  - rewrite length_replicate. unfold CAPLEN_MAX. lia.
Defined.

Section SourceLifecycle.

Context {E : Type}.
Context (stage_at : stage_ref → pkt_pipeline_stage E).

(** The result of [pktdump_runpipeline] by the way the read ended. *)
Lemma runpipeline_code (cap : pcap_t) (m : machine E) :
  let d := pcap_dispatch stage_at cap m in
  (if d.1 =? -2 then -2 else if d.1 =? -1 then -1 else 0)
  = match pcap_end cap with
    | EndOfFile => 0
    | ReadError => -1
    | LoopBroken => -2
    end.
Proof.
  simpl. unfold dispatch_result.
  destruct (pcap_end cap); [| done | done].
  destruct (Z.eqb_spec (Z.of_nat (length (pcap_pending cap))) (-2)); [lia |].
  destruct (Z.eqb_spec (Z.of_nat (length (pcap_pending cap))) (-1)); [lia |].
  done.
Qed.

End SourceLifecycle.

(** X7: [pktdump_runpipeline] on an open source returns 0 when the file was
    read to its end, however many frames that were, -1 after a read error
    and -2 after a break.  It has then dispatched the pending frames in
    order, the pipeline and the stages' state are what that dispatch left,
    the source is still allocated with the same handle, and the handle has
    nothing pending any more. *)
Theorem runpipeline_outcome {E : Type}
    (stage_at : stage_ref → pkt_pipeline_stage E)
    (p : addr) (src : pkt_pipeline_source) (hd : handle) (cap : pcap_t)
    (st : process_state E) :
  st_heap st !! p = Some src →
  ps_pcap_reader src = Some hd →
  st_pcap st !! hd = Some cap →
  let d := dispatch_frames stage_at (pcap_pending cap)
             (ps_pipeline src, st_ext st) in
  ∃ st',
    pktdump_runpipeline stage_at p st
    = Returns (match pcap_end cap with
               | EndOfFile => 0
               | ReadError => -1
               | LoopBroken => -2
               end, d.1) st'
    ∧ st_ext st' = d.2.2
    ∧ (ps_pipeline <$> st_heap st' !! p) = Some d.2.1
    ∧ (ps_pcap_reader <$> st_heap st' !! p) = Some (Some hd)
    ∧ (pcap_pending <$> st_pcap st' !! hd) = Some []
    ∧ (∀ q, q ≠ p → st_heap st' !! q = st_heap st !! q).
Proof.
  intros Hp Hr Hc d.
  pose proof (runpipeline_code stage_at cap (ps_pipeline src, st_ext st)) as Hcode.
  unfold pktdump_runpipeline. rewrite Hp, Hr. simpl. rewrite Hc. simpl.
  simpl in Hcode. rewrite <- Hcode.
  destruct (dispatch_result cap =? -2); [| destruct (dispatch_result cap =? -1)];
    (eexists; split; [reflexivity |]; simpl;
     rewrite !lookup_insert_eq; simpl;
     repeat (split; [done |]);
     intros q Hq; by rewrite lookup_insert_ne).
Qed.

Lemma runpipeline_outcome_witness :
  st_heap Sample.opened !! 4096 = Some Sample.source3
  ∧ ps_pcap_reader Sample.source3 = Some 7
  ∧ st_pcap Sample.opened !! 7 = Some Sample.capture3
  ∧ ∃ st', pktdump_runpipeline Sample.stage_at 4096 Sample.opened
           = Returns (0, [[]; []; []]) st'.
Proof.
  repeat (split; [reflexivity |]).
  destruct (runpipeline_outcome Sample.stage_at 4096 Sample.source3 7
              Sample.capture3 Sample.opened) as (st' & Hrun & _);
    [reflexivity | reflexivity | reflexivity |].
  exists st'. exact Hrun.
Defined.

(** X8: with the block that [malloc] returned not in use before,
    [pktdump_inputsource] either fails and leaves the state exactly as it
    was, returning NULL with the library's message as the content of
    [ebuf], or returns a source with no stage registered, all eight slots
    clear, the link type of the capture recorded and the new handle stored;
    [ebuf] and every other block are then untouched. *)
Theorem inputsource_outcome {E : Type} (p : addr)
    (open_result : string → handle * pcap_t + string)
    (file ebuf : string) (st : process_state E) :
  st_heap st !! p = None →
  match open_result file with
  | inr msg =>
      pktdump_inputsource (Some p) open_result file ebuf st
      = Returns (None, msg) st
  | inl (hd, cap) =>
      ∃ st' src,
        pktdump_inputsource (Some p) open_result file ebuf st
        = Returns (Some p, ebuf) st'
        ∧ st_heap st' !! p = Some src
        ∧ pkt_stage_next (ps_pipeline src) = 0
        ∧ pkt_stages (ps_pipeline src)
          = replicate (Z.to_nat PKT_PIPELINE_MAX) zero_instance
        ∧ pkt_datalink (ps_pipeline src) = pcap_linktype cap
        ∧ ps_pcap_reader src = Some hd
        ∧ st_pcap st' !! hd = Some cap
        ∧ st_ext st' = st_ext st
        ∧ (∀ q, q ≠ p → st_heap st' !! q = st_heap st !! q)
  end.
Proof.
  intros Hfresh. unfold pktdump_inputsource.
  destruct (open_result file) as [[hd cap] | msg].
  - do 2 eexists. split; [reflexivity |]. simpl.
    rewrite !lookup_insert_eq. repeat (split; [done |]).
    intros q Hq. by rewrite !lookup_insert_ne.
  - unfold free. simpl. rewrite lookup_insert_eq. simpl.
    unfold set_heap. simpl. rewrite delete_insert_eq.
    rewrite delete_id by done. by destruct st.
Qed.

Lemma inputsource_outcome_witness :
  st_heap Sample.boot !! 4096 = None
  ∧ pktdump_inputsource (Some 4096) Sample.open_capture3 "missing.pcap" ""
      Sample.boot
    = Returns (None, "No such file or directory"%string) Sample.boot.
Proof.
  split; [reflexivity |].
  exact (inputsource_outcome 4096 Sample.open_capture3 "missing.pcap" ""
           Sample.boot eq_refl).
Defined.

(** X9: opening a source and closing it again gives the heap back as it
    was, and the stages' state with it; what stays behind is the capture
    handle, still open. *)
Theorem open_then_finish {E : Type} (p : addr)
    (open_result : string → handle * pcap_t + string)
    (file ebuf : string) (hd : handle) (cap : pcap_t) (st : process_state E) :
  st_heap st !! p = None →
  open_result file = inl (hd, cap) →
  ∃ st1 st2,
    pktdump_inputsource (Some p) open_result file ebuf st
    = Returns (Some p, ebuf) st1
    ∧ pktdump_finish (Some p) st1 = Returns 1 st2
    ∧ st_heap st2 = st_heap st
    ∧ st_ext st2 = st_ext st
    ∧ st_pcap st2 = <[hd := cap]> (st_pcap st).
Proof.
  intros Hfresh Hopen. unfold pktdump_inputsource. rewrite Hopen.
  do 2 eexists. split; [reflexivity |].
  unfold pktdump_finish, free. simpl. rewrite lookup_insert_eq. simpl.
  split; [reflexivity |]. simpl.
  rewrite !delete_insert_eq. by rewrite delete_id.
Qed.

Lemma open_then_finish_witness :
  st_heap Sample.boot !! 4096 = None
  ∧ Sample.open_capture3 "three.pcap" = inl (7, Sample.capture3)
  ∧ ∃ st1 st2,
      pktdump_inputsource (Some 4096) Sample.open_capture3 "three.pcap" ""
        Sample.boot = Returns (Some 4096, ""%string) st1
      ∧ pktdump_finish (Some 4096) st1 = Returns 1 st2
      ∧ st_heap st2 = st_heap Sample.boot.
Proof.
  split; [reflexivity |]. split; [reflexivity |].
  destruct (open_then_finish 4096 Sample.open_capture3 "three.pcap" "" 7
              Sample.capture3 Sample.boot eq_refl eq_refl)
    as (st1 & st2 & H1 & H2 & H3 & _).
  exists st1, st2. split; [exact H1 |]. split; [exact H2 | exact H3].
Defined.

Lemma registration_saturates_witness :
  inits_keep_registry Sample.stage_at
  ∧ (add_all Sample.stage_at (replicate 10 0%nat) Sample.start).1
    = [Some 0; Some 1; Some 2; Some 3; Some 4; Some 5; Some 6; Some 7;
       None; None].
Proof.
  split; [apply sample_inits_keep_registry |].
  destruct (registration_saturates Sample.stage_at (replicate 10 0%nat) 0
              sample_inits_keep_registry) as (Hres & _).
  exact Hres.
Defined.

(** ** The hex-dump stage *)

Lemma int_succ_Some (i : Z) : i < INT_MAX → int_succ i = Some (i + 1).
Proof. intros Hi. unfold int_succ. destruct (Z.ltb_spec i INT_MAX); [done | lia]. Qed.

Lemma int_succ_None (i : Z) : INT_MAX <= i → int_succ i = None.
Proof. intros Hi. unfold int_succ. destruct (Z.ltb_spec i INT_MAX); [lia | done]. Qed.

Lemma dump_events_S (p i : Z) (n : nat) :
  dump_events p i (S n) = dump_item p i 0 ++ dump_events (p + 1) (i + 1) n.
Proof.
  unfold dump_events. rewrite seqZ_cons by lia.
  rewrite bind_cons. f_equal.
  replace (Z.pred (Z.of_nat (S n))) with (Z.of_nat n) by lia.
  change (Z.succ 0) with (1 + 0). rewrite <- fmap_add_seqZ, list_fmap_bind.
  apply list_bind_ext; [| done]. intros k. unfold dump_item. simpl.
  by replace (p + (1 + k)) with (p + 1 + k) by lia;
     replace (i + (1 + k)) with (i + 1 + k) by lia.
Qed.

(** The byte loop against its closed form. *)
Lemma dump_bytes_events (n : nat) :
  ∀ p i : Z,
    i + Z.of_nat n <= INT_MAX →
    dump_bytes n p i = Some (dump_events p i n, i + Z.of_nat n).
Proof.
  induction n as [| n IH]; intros p i Hi.
  - simpl. do 2 f_equal. lia.
  - cbn [dump_bytes]. rewrite int_succ_Some by lia.
    rewrite IH by lia. simpl. rewrite dump_events_S. unfold dump_item at 1.
    rewrite !Z.add_0_r. do 2 f_equal. lia.
Qed.

Lemma dump_bytes_overflow (n : nat) :
  ∀ p i : Z, i <= INT_MAX → INT_MAX < i + Z.of_nat n → dump_bytes n p i = None.
Proof.
  induction n as [| n IH]; intros p i Hle Hi; [lia |].
  cbn [dump_bytes]. destruct (Z.ltb_spec i INT_MAX) as [Hlt | Hge].
  - rewrite int_succ_Some by done. by rewrite IH by lia.
  - by rewrite int_succ_None.
Qed.

Lemma dump_events_snoc (p i : Z) (n : nat) :
  dump_events p i (S n) = dump_events p i n ++ dump_item p i (Z.of_nat n).
Proof.
  unfold dump_events. rewrite seqZ_S, bind_app. f_equal.
  simpl. by rewrite app_nil_r.
Qed.

(** In the text of a packet the bytes come in order, and a line break
    follows the first byte and every eighth byte after it. *)
Lemma dump_events_shape (p : Z) (n : nat) :
  omap (λ e, match e with ByteItem q => Some q | _ => None end)
    (dump_events p 0 n) = seqZ p (Z.of_nat n)
  ∧ Z.of_nat (length (filter (λ e, e = LineBreak) (dump_events p 0 n)))
    = (Z.of_nat n + 7) / 8.
Proof.
  induction n as [| n [IHb IHl]]; [done |].
  rewrite dump_events_snoc. split.
  - rewrite omap_app, IHb, seqZ_S. f_equal. unfold dump_item. simpl.
    by destruct (Z.rem (0 + Z.of_nat n) 8 =? 0).
  - rewrite filter_app, length_app, Nat2Z.inj_add, IHl. unfold dump_item.
    rewrite filter_cons_False by done.
    destruct (Z.eqb_spec (Z.rem (0 + Z.of_nat n) 8) 0) as [Hz | Hnz].
    + rewrite filter_cons_True by done. simpl.
      rewrite Z.rem_mod_nonneg in Hz by lia.
      Z.div_mod_to_equations. lia.
    + simpl. rewrite Z.rem_mod_nonneg in Hnz by lia.
      Z.div_mod_to_equations. lia.
Qed.

Lemma hexdumpc_loop_done (fuel : nat) (ppp : option addr)
    (packlist : pkt_pipeline_list) (i : Z) (w : dumpc_world) :
  pkt_extent packlist <= to_u32 i →
  hexdumpc_loop (S fuel) ppp packlist i w = Running w.
Proof.
  intros Hi. cbn [hexdumpc_loop].
  destruct (Z.ltb_spec (to_u32 i) (pkt_extent packlist)); [lia | done].
Qed.

(** One round of the packet loop on a present entry: the loop goes on from
    the captured length plus one. *)
Lemma hexdumpc_loop_packet (fuel : nat) (a : addr) (priv : dumpc_pipeline_private)
    (packlist : pkt_pipeline_list) (pph : pkt_pipeline_hdr) (i : Z)
    (w : dumpc_world) :
  to_u32 i < pkt_extent packlist →
  pkt_list packlist !! Z.to_nat i = Some (Some pph) →
  dw_blocks w !! a = Some priv →
  tp_snaplen (cb_hdr (pkt_pipeline_hdr_ pph)) < INT_MAX →
  hexdumpc_loop (S fuel) (Some a) packlist i w
  = hexdumpc_loop fuel (Some a) packlist
      (Z.max 0 (tp_snaplen (cb_hdr (pkt_pipeline_hdr_ pph))) + 1)
      (dumped a priv pph w).
Proof.
  intros Hi Hpph Hpriv Hc. cbn [hexdumpc_loop].
  destruct (Z.ltb_spec (to_u32 i) (pkt_extent packlist)); [| lia].
  rewrite Hpph, Hpriv. cbn zeta.
  assert (Hmax : INT_MAX = 2147483647) by reflexivity.
  rewrite dump_bytes_events by lia. cbn [fst snd].
  rewrite int_succ_Some by lia.
  replace (0 + Z.of_nat (Z.to_nat (tp_snaplen (cb_hdr (pkt_pipeline_hdr_ pph)))) + 1)
    with (Z.max 0 (tp_snaplen (cb_hdr (pkt_pipeline_hdr_ pph))) + 1) by lia.
  f_equal. unfold dumped, print, dump_packet. simpl. f_equal.
  by rewrite <- !app_assoc.
Qed.

Lemma hexdumpc_loop_absent (fuel : nat) (ppp : option addr)
    (packlist : pkt_pipeline_list) (i : Z) (w : dumpc_world) :
  to_u32 i < pkt_extent packlist →
  pkt_list packlist !! Z.to_nat i = Some None →
  i < INT_MAX →
  hexdumpc_loop (S fuel) ppp packlist i w
  = hexdumpc_loop fuel ppp packlist (i + 1) w.
Proof.
  intros Hi Hpph Hmax. cbn [hexdumpc_loop].
  destruct (Z.ltb_spec (to_u32 i) (pkt_extent packlist)); [| lia].
  by rewrite Hpph, int_succ_Some.
Qed.

Lemma to_u32_succ (n : Z) : to_u32 (to_u32 n + 1) = to_u32 (n + 1).
Proof. unfold to_u32. by rewrite Zplus_mod_idemp_l. Qed.

(** The stage on a batch of one present entry: one packet is dumped. *)
Lemma hexdumpc_process_single (fuel : nat) (i : Z) (m : machine dumpc_state)
    (w : dumpc_world) (a : addr) (priv : dumpc_pipeline_private)
    (pph : pkt_pipeline_hdr) :
  m.2 = Running w →
  stage_slot m.1 i ≫= pi_stage_info = Some a →
  dw_blocks w !! a = Some priv →
  pkt_master_list m.1 = {| pkt_list := [Some pph]; pkt_extent := 1 |} →
  tp_snaplen (cb_hdr (pkt_pipeline_hdr_ pph)) < INT_MAX →
  pkt_hexdumpc_process (S (S fuel)) i m
  = (0, (m.1, Running (dumped a priv pph w))).
Proof.
  intros Hrun Hinfo Hpriv Hlist Hc. unfold pkt_hexdumpc_process.
  rewrite Hrun, Hinfo, Hlist.
  rewrite (hexdumpc_loop_packet _ a priv _ pph) by done.
  rewrite hexdumpc_loop_done; [done |].
  assert (Hmax : INT_MAX = 2147483647) by reflexivity.
  rewrite to_u32_small; simpl; lia.
Qed.

Section DumpcStage.

Context (get_if_printer : Z → Z) (fuel : nat).

Lemma dumpc_inits_keep_registry :
  inits_keep_registry (dumpc_stage_at get_if_printer fuel).
Proof.
  intros ps init Hinit. injection Hinit as <-. intros i m.
  unfold pkt_hexdumpc_init. destruct m.2 as [w | |]; [| done | done].
  assert (Hreg : registry (set_stages
                   (alter (set_stage_info
                             match dw_malloc w with r :: _ => r | [] => None end)
                      (Z.to_nat i) (pkt_stages m.1)) m.1) = registry m.1).
  { unfold registry. simpl. f_equal.
    rewrite (list_fmap_alter _ _ id) by (by apply Forall_true).
    by apply list_alter_id. }
  by destruct (match dw_malloc w with r :: _ => r | [] => None end).
Qed.

Lemma dumpc_processes_behave :
  processes_behave (dumpc_stage_at get_if_printer fuel).
Proof.
  intros ps process Hp. injection Hp as <-.
  split; intros i m; unfold pkt_hexdumpc_process;
    destruct m.2; done.
Qed.

Lemma dumpc_processes_return_0 (ps : stage_ref) (process : stage_op dumpc_state) :
  pp_process (dumpc_stage_at get_if_printer fuel ps) = Some process →
  ∀ i m, (process i m).1 = 0.
Proof.
  intros Hp. injection Hp as <-. intros i m.
  unfold pkt_hexdumpc_process. by destruct m.2.
Qed.

End DumpcStage.

Section DumpcRun.

Context (get_if_printer : Z → Z) (fuel : nat).

(** One frame through a pipeline that is ready: the stage is called once,
    returns 0, and has dumped the frame. *)
Lemma process_one_ready (a : addr) (n : Z) (out : list out_event)
    (h : pcap_pkthdr) (bytes : list byte) (m : machine dumpc_state) :
  dumpc_ready a (to_u32 n) out m →
  (pktdump_process_one (dumpc_stage_at get_if_printer (S (S fuel))) h bytes m).1 = [(0, 0)]
  ∧ dumpc_ready a (to_u32 (n + 1))
      (out ++ dump_packet (to_u32 n) PAYLOAD_OFFSET (clamp_caplen (caplen h)))
      (pktdump_process_one (dumpc_stage_at get_if_printer (S (S fuel))) h bytes m).2.
Proof.
  intros (Hnext & Hslot & w & Hrun & Hnum & Hout).
  destruct (dw_blocks w !! a) as [priv |] eqn:Hpriv; [| done].
  injection Hnum as Hnum.
  set (m0 := (set_master_list (build_batch h bytes) m.1, m.2)).
  assert (Hcall : pkt_hexdumpc_process (S (S fuel)) 0 m0
                  = (0, (m0.1, Running (dumped a priv (build_descriptor h bytes) w)))).
  { apply hexdumpc_process_single; try done.
    - unfold m0, stage_slot in *. simpl. by rewrite Hslot.
    - simpl. pose proof (clamp_caplen_le (caplen h)) as Hle.
      unfold CAPLEN_MAX in Hle. change INT_MAX with 2147483647. lia. }
  assert (Hone : pktdump_process_one (dumpc_stage_at get_if_printer (S (S fuel))) h bytes m
                 = ([(0, 0)],
                    (m0.1, Running (dumped a priv (build_descriptor h bytes) w)))).
  { rewrite process_one_run. fold m0.
    change (Z.to_nat PKT_PIPELINE_MAX) with (S (S 6)).
    rewrite (run_stages_single (dumpc_stage_at get_if_printer (S (S fuel))) 6 m0 (pkt_hexdumpc_process (S (S fuel)))).
    - by rewrite Hcall.
    - exact Hnext.
    - unfold process_at. change (stage_slot m0.1 0) with (stage_slot m.1 0).
      by rewrite Hslot.
    - rewrite Hcall. exact Hnext. }
  rewrite Hone. split; [reflexivity |]. cbn [fst snd].
  split; [exact Hnext |]. split; [exact Hslot |].
  eexists. split; [reflexivity |]. split.
  - cbn [dumped dw_blocks]. rewrite lookup_insert_eq. cbn [fmap option_fmap option_map set_pkt_num pkt_num].
    by rewrite Hnum, to_u32_succ.
  - cbn [dumped dw_stdout]. by rewrite Hout, Hnum.
Qed.

Lemma dispatch_ready (a : addr) (fs : list frame) :
  ∀ (n : Z) (out : list out_event) (m : machine dumpc_state),
    dumpc_ready a (to_u32 n) out m →
    (dispatch_frames (dumpc_stage_at get_if_printer (S (S fuel))) fs m).1 = replicate (length fs) [(0, 0)]
    ∧ dumpc_ready a (to_u32 (n + Z.of_nat (length fs)))
        (out ++ dump_output n fs) (dispatch_frames (dumpc_stage_at get_if_printer (S (S fuel))) fs m).2.
Proof.
  induction fs as [| f fs IH]; intros n out m Hready.
  - rewrite dispatch_frames_nil. cbn [fst snd length replicate dump_output].
    rewrite app_nil_r, Z.add_0_r. done.
  - rewrite dispatch_frames_cons. cbn [fst snd dump_output length replicate].
    destruct (process_one_ready a n out (fr_hdr f) (fr_bytes f) m Hready)
      as [Hlog Hnext].
    destruct (IH _ _ _ Hnext) as [Hlogs Hfinal].
    rewrite Hlog, Hlogs. split; [done |].
    rewrite app_assoc.
    by replace (n + Z.of_nat (S (length fs)))
      with (n + 1 + Z.of_nat (length fs)) by lia.
Qed.

(** Registering the stage on a source just opened, with [malloc]
    succeeding. *)
Lemma register_ready (d : Z) (blocks : gmap addr dumpc_pipeline_private)
    (out : list out_event) (a : addr) (rest : list (option addr)) :
  let r := pktdump_hexdumpc_pipeline get_if_printer (S (S fuel))
             (dumpc_opened d {| dw_blocks := blocks; dw_stdout := out;
                                dw_malloc := Some a :: rest |}) in
  r.1 = 0
  ∧ dumpc_ready a 0 out r.2
  ∧ ∃ w, r.2.2 = Running w
         ∧ dw_blocks w
           = <[a := {| ndo_tstamp_precision := PCAP_TSTAMP_PRECISION_NANO;
                       ndo_if_printer := get_if_printer d; pkt_num := 0 |}]> blocks
         ∧ dw_malloc w = rest.
Proof.
  cbn. split; [done |]. split.
  - split; [done |]. split; [done |]. eexists. split; [reflexivity |].
    simpl. by rewrite lookup_insert_eq.
  - eexists. by split.
Qed.

End DumpcRun.

(** X10: the byte loop of the hex-dump stage, entered with the counter at
    0 for a packet of [n] bytes, writes one item per byte, for the
    pointers [p], [p+1], ... in order, with a line break after the first
    byte and after every eighth byte from there, and it leaves the counter
    at [n]. *)
Theorem dump_bytes_text (n : nat) (p : Z) :
  Z.of_nat n <= INT_MAX →
  ∃ evs,
    dump_bytes n p 0 = Some (evs, Z.of_nat n)
    ∧ evs = dump_events p 0 n
    ∧ omap (λ e, match e with ByteItem q => Some q | _ => None end) evs
      = seqZ p (Z.of_nat n)
    ∧ Z.of_nat (length (filter (λ e, e = LineBreak) evs)) = (Z.of_nat n + 7) / 8.
Proof.
  intros Hn. exists (dump_events p 0 n).
  split; [by rewrite dump_bytes_events by lia |].
  split; [done |]. apply dump_events_shape.
Qed.

Lemma dump_bytes_text_witness :
  Z.of_nat 3 <= INT_MAX
  ∧ ∃ evs, dump_bytes 3 2048 0 = Some (evs, 3)
           ∧ evs = [ByteItem 2048; LineBreak; ByteItem 2049; ByteItem 2050].
Proof.
  split; [vm_compute; discriminate |].
  destruct (dump_bytes_text 3 2048) as (evs & Hrun & Hevs & _);
    [vm_compute; discriminate |].
  exists evs. split; [exact Hrun | exact Hevs].
Defined.

(** X11: the hex-dump stage on the batch the adapter builds for a frame,
    with its private block in place: it returns 0, leaves the pipeline as
    it is, counts one packet more and appends the text of one packet; that
    text is fixed by the packet number and the captured length, so two
    frames of the same length give the same text whatever their bytes. *)
Theorem hexdumpc_dumps_frame (fuel : nat) (i : Z) (m : machine dumpc_state)
    (w : dumpc_world) (a : addr) (priv : dumpc_pipeline_private)
    (h : pcap_pkthdr) (bytes : list byte) :
  m.2 = Running w →
  stage_slot m.1 i ≫= pi_stage_info = Some a →
  dw_blocks w !! a = Some priv →
  pkt_master_list m.1 = build_batch h bytes →
  let r := pkt_hexdumpc_process (S (S fuel)) i m in
  r.1 = 0
  ∧ r.2.1 = m.1
  ∧ ∃ w', r.2.2 = Running w'
          ∧ dw_stdout w'
            = dw_stdout w ++ dump_packet (pkt_num priv) PAYLOAD_OFFSET
                               (clamp_caplen (caplen h))
          ∧ dw_blocks w'
            = <[a := set_pkt_num (to_u32 (pkt_num priv + 1)) priv]> (dw_blocks w)
          ∧ dw_malloc w' = dw_malloc w.
Proof.
  intros Hrun Hinfo Hpriv Hlist r.
  assert (Hr : r = (0, (m.1, Running (dumped a priv (build_descriptor h bytes) w)))).
  { apply hexdumpc_process_single; try done.
    simpl. pose proof (clamp_caplen_le (caplen h)) as Hle.
    unfold CAPLEN_MAX in Hle. change INT_MAX with 2147483647. lia. }
  rewrite Hr. split; [done |]. split; [done |].
  eexists. split; [reflexivity |]. by repeat split.
Qed.

Lemma hexdumpc_dumps_frame_witness :
  let m := DumpSample.with_batch (build_batch DumpSample.hdr3 DumpSample.bytes3) in
  m.2 = Running DumpSample.ready_world
  ∧ ∃ w', (pkt_hexdumpc_process 2 0 m).2.2 = Running w'
          ∧ dw_stdout w'
            = [PacketOpen 0; ByteItem 2048; LineBreak; ByteItem 2049;
               ByteItem 2050; PacketClose].
Proof.
  intros m. split; [reflexivity |].
  destruct (hexdumpc_dumps_frame 0 0 m DumpSample.ready_world 8192
              {| ndo_tstamp_precision := 1; ndo_if_printer := 1001; pkt_num := 0 |}
              DumpSample.hdr3 DumpSample.bytes3)
    as (_ & _ & w' & Hw & Hout & _); try reflexivity.
  exists w'. split; [exact Hw | exact Hout].
Defined.

(** X12: the hex-dump stage is a stage as the engine expects it: neither
    its init nor its process operation changes the stage count or the
    stage of a slot, and its process operation returns 0 whenever it
    returns, so it never stops a batch. *)
Theorem hexdumpc_is_well_behaved (get_if_printer : Z → Z) (fuel : nat) :
  inits_keep_registry (dumpc_stage_at get_if_printer fuel)
  ∧ processes_behave (dumpc_stage_at get_if_printer fuel)
  ∧ ∀ i m, (pkt_hexdumpc_process fuel i m).1 = 0.
Proof.
  split; [apply dumpc_inits_keep_registry |].
  split; [apply dumpc_processes_behave |].
  intros i m. by apply (dumpc_processes_return_0 get_if_printer fuel 0%nat).
Qed.

(** X4: in a pipeline whose process operations all return 0, a dispatch
    cycle calls every registered stage that has a process operation, once
    and in registration order. *)
Theorem all_stages_called_when_none_fails {E : Type}
    (stage_at : stage_ref → pkt_pipeline_stage E)
    (h : pcap_pkthdr) (bytes : list byte) (m : machine E) :
  processes_behave stage_at →
  (∀ ps process, pp_process (stage_at ps) = Some process →
                 ∀ i m, (process i m).1 = 0) →
  (pktdump_process_one stage_at h bytes m).1
  = (λ s, (s.1, 0)) <$> filter (λ s, is_Some s.2) (registered stage_at m.1).
Proof.
  intros Hok Hzero. rewrite process_one_run.
  rewrite run_stages_described; [| done | vm_compute; discriminate].
  change (registered stage_at m.1)
    with (registered_from stage_at
            (set_master_list (build_batch h bytes) m.1, m.2).1 0).
  rewrite run_in_order_all_zero; [done |].
  intros j process Hin.
  apply registered_from_table in Hin as [ps Hps]. by apply (Hzero ps).
Qed.

Lemma all_stages_called_when_none_fails_witness :
  processes_behave (dumpc_stage_at DumpSample.printer_of 2)
  ∧ (pktdump_process_one (dumpc_stage_at DumpSample.printer_of 2)
       DumpSample.hdr3 DumpSample.bytes3 DumpSample.ready).1 = [(0, 0)].
Proof.
  split; [apply dumpc_processes_behave |].
  rewrite (all_stages_called_when_none_fails
             (dumpc_stage_at DumpSample.printer_of 2)).
  - reflexivity.
  - apply dumpc_processes_behave.
  - apply dumpc_processes_return_0.
Defined.

(** X13: [pktdump_hexdumpc_pipeline] returns -1 exactly when the registry
    is full, and has then changed nothing; in every other case it returns
    0, whatever the stage's init returned. *)
Theorem hexdumpc_registration_result (get_if_printer : Z → Z) (fuel : nat)
    (m : machine dumpc_state) :
  let r := pktdump_hexdumpc_pipeline get_if_printer fuel m in
  (r.1 = -1 ↔ PKT_PIPELINE_MAX <= pkt_stage_next m.1)
  ∧ (r.1 = 0 ↔ pkt_stage_next m.1 < PKT_PIPELINE_MAX)
  ∧ (r.1 = -1 → r.2 = m).
Proof.
  unfold pktdump_hexdumpc_pipeline, pktdump_pipeline_add. cbn zeta.
  destruct (Z.geb_spec (pkt_stage_next m.1) PKT_PIPELINE_MAX) as [Hfull | Hfree].
  - simpl. repeat split; try done; lia.
  - simpl. repeat split; try done; lia.
Qed.

(** X14: when the stage's [malloc] fails at registration,
    [pktdump_hexdumpc_pipeline] still reports success; the stage is
    registered with a null [pi_stage_info], and the first frame dispatched
    makes it dereference that pointer. *)
Theorem hexdumpc_failed_init_crashes (get_if_printer : Z → Z) (fuel : nat)
    (d : Z) (blocks : gmap addr dumpc_pipeline_private) (out : list out_event)
    (rest : list (option addr)) (h : pcap_pkthdr) (bytes : list byte) :
  let r := pktdump_hexdumpc_pipeline get_if_printer (S fuel)
             (dumpc_opened d {| dw_blocks := blocks; dw_stdout := out;
                                dw_malloc := None :: rest |}) in
  (pkt_hexdumpc_init get_if_printer 0
     (dumpc_opened d {| dw_blocks := blocks; dw_stdout := out;
                        dw_malloc := None :: rest |})).1 = -2
  ∧ r.1 = 0
  ∧ pkt_stage_next r.2.1 = 1
  ∧ stage_slot r.2.1 0
    = Some {| pi_stage := Some hexdumpc_ref; pi_stage_info := None;
              pi_stage_num := 0 |}
  ∧ (pktdump_process_one (dumpc_stage_at get_if_printer (S fuel)) h bytes r.2).2.2
    = Crashed.
Proof.
  intros r. split; [reflexivity |]. split; [reflexivity |].
  split; [reflexivity |]. split; [reflexivity |].
  rewrite process_one_run.
  set (m0 := (set_master_list (build_batch h bytes) r.2.1, r.2.2)).
  change (Z.to_nat PKT_PIPELINE_MAX) with (S (S 6)).
  rewrite (run_stages_single _ 6 m0 (pkt_hexdumpc_process (S fuel)));
    reflexivity.
Qed.

(** X15: the whole run of the hex-dump stage.  On a source just opened, with
    [malloc] succeeding, the stage registers at index 0; dispatching the
    frames [fs] then calls it once per frame, each call returning 0, and in
    the end [stdout] has gained the text of every frame in order, numbered
    from 0, and the packet counter holds the number of frames modulo
    2^32. *)
Theorem hexdumpc_run (get_if_printer : Z → Z) (fuel : nat)
    (d : Z) (blocks : gmap addr dumpc_pipeline_private) (out : list out_event)
    (a : addr) (rest : list (option addr)) (fs : list frame) :
  let r := pktdump_hexdumpc_pipeline get_if_printer (S (S fuel))
             (dumpc_opened d {| dw_blocks := blocks; dw_stdout := out;
                                dw_malloc := Some a :: rest |}) in
  let run := dispatch_frames (dumpc_stage_at get_if_printer (S (S fuel))) fs r.2 in
  r.1 = 0
  ∧ run.1 = replicate (length fs) [(0, 0)]
  ∧ ∃ w, run.2.2 = Running w
         ∧ dw_stdout w = out ++ dump_output 0 fs
         ∧ (pkt_num <$> dw_blocks w !! a) = Some (to_u32 (Z.of_nat (length fs))).
Proof.
  intros r run.
  destruct (register_ready get_if_printer fuel d blocks out a rest)
    as (Hcode & Hready & _).
  fold r in Hcode, Hready. split; [done |].
  destruct (dispatch_ready get_if_printer fuel a fs 0 out r.2 Hready)
    as (Hlogs & _ & _ & w & Hw & Hnum & Hout).
  split; [done |]. exists w. by repeat split.
Qed.

(** X16: the packet loop of the hex-dump stage counts the bytes of a packet
    with its own index, so after a present first entry of captured length
    [c] it goes on at entry [c + 1].  On a batch whose extent is at most
    [c + 1] it therefore ends after the first packet: nothing is written
    for any other entry, present or not. *)
Theorem hexdumpc_dumps_first_only (fuel : nat) (i : Z) (m : machine dumpc_state)
    (w : dumpc_world) (a : addr) (priv : dumpc_pipeline_private)
    (pph : pkt_pipeline_hdr) :
  m.2 = Running w →
  stage_slot m.1 i ≫= pi_stage_info = Some a →
  dw_blocks w !! a = Some priv →
  pkt_list (pkt_master_list m.1) !! 0%nat = Some (Some pph) →
  0 < pkt_extent (pkt_master_list m.1)
    <= tp_snaplen (cb_hdr (pkt_pipeline_hdr_ pph)) + 1 →
  tp_snaplen (cb_hdr (pkt_pipeline_hdr_ pph)) < INT_MAX →
  pkt_hexdumpc_process (S (S fuel)) i m
  = (0, (m.1, Running (dumped a priv pph w))).
Proof.
  intros Hrun Hinfo Hpriv Hfirst Hext Hc. unfold pkt_hexdumpc_process.
  rewrite Hrun, Hinfo.
  assert (Hmax : INT_MAX = 2147483647) by reflexivity.
  rewrite (hexdumpc_loop_packet _ a priv _ pph); try done.
  - rewrite hexdumpc_loop_done; [done |].
    rewrite to_u32_small; lia.
  - change (to_u32 0) with 0. lia.
Qed.

Lemma hexdumpc_dumps_first_only_witness :
  let m := DumpSample.with_batch
             (DumpSample.batch_of_two DumpSample.hdr3 DumpSample.bytes3) in
  m.2 = Running DumpSample.ready_world
  ∧ ∃ w', (pkt_hexdumpc_process 2 0 m).2.2 = Running w'
          ∧ dw_stdout w'
            = [PacketOpen 0; ByteItem 2048; LineBreak; ByteItem 2049;
               ByteItem 2050; PacketClose].
Proof.
  intros m. split; [reflexivity |].
  pose proof (hexdumpc_dumps_first_only 0 0 m DumpSample.ready_world 8192
                {| ndo_tstamp_precision := 1; ndo_if_printer := 1001;
                   pkt_num := 0 |}
                (build_descriptor DumpSample.hdr3 DumpSample.bytes3)
                eq_refl eq_refl eq_refl eq_refl) as Hrun.
  rewrite Hrun.
  - eexists. split; reflexivity.
  - vm_compute. split; [reflexivity | discriminate].
  - reflexivity.
Defined.

(** The loop never leaves an entry [j] whose captured length is [j - 1]. *)
Lemma hexdumpc_loop_stuck (a : addr) (packlist : pkt_pipeline_list)
    (pph : pkt_pipeline_hdr) (j : Z) :
  1 <= j < pkt_extent packlist →
  j <= INT_MAX →
  pkt_list packlist !! Z.to_nat j = Some (Some pph) →
  tp_snaplen (cb_hdr (pkt_pipeline_hdr_ pph)) = j - 1 →
  ∀ (fuel : nat) (w : dumpc_world) (priv : dumpc_pipeline_private),
    dw_blocks w !! a = Some priv →
    hexdumpc_loop fuel (Some a) packlist j w = OutOfFuel.
Proof.
  intros Hj Hmax Hpph Hc. assert (Hm : INT_MAX = 2147483647) by reflexivity.
  induction fuel as [| fuel IH]; intros w priv Hpriv; [reflexivity |].
  rewrite (hexdumpc_loop_packet _ a priv _ pph); try done.
  - rewrite Hc. replace (Z.max 0 (j - 1) + 1) with j by lia.
    apply (IH _ (set_pkt_num (to_u32 (pkt_num priv + 1)) priv)).
    cbn [dumped dw_blocks]. apply lookup_insert_eq.
  - rewrite to_u32_small; lia.
  - lia.
Qed.

(** X17: for the same reason a batch in which the first entry has captured
    length [j - 1] and entry [j] has that length too is never finished:
    the loop returns to entry [j] after every round, dumping it again and
    again, and no amount of fuel lets the stage return.  Two packets
    without bytes at entries 0 and 1 are such a batch. *)
Theorem hexdumpc_never_returns (i : Z) (m : machine dumpc_state)
    (w : dumpc_world) (a : addr) (priv : dumpc_pipeline_private)
    (p0 pj : pkt_pipeline_hdr) (j : Z) :
  m.2 = Running w →
  stage_slot m.1 i ≫= pi_stage_info = Some a →
  dw_blocks w !! a = Some priv →
  1 <= j < pkt_extent (pkt_master_list m.1) →
  j <= INT_MAX →
  pkt_list (pkt_master_list m.1) !! 0%nat = Some (Some p0) →
  tp_snaplen (cb_hdr (pkt_pipeline_hdr_ p0)) = j - 1 →
  pkt_list (pkt_master_list m.1) !! Z.to_nat j = Some (Some pj) →
  tp_snaplen (cb_hdr (pkt_pipeline_hdr_ pj)) = j - 1 →
  ∀ fuel, (pkt_hexdumpc_process fuel i m).2.2 = OutOfFuel.
Proof.
  intros Hrun Hinfo Hpriv Hj Hmax H0 Hc0 Hpj Hcj fuel.
  assert (Hm : INT_MAX = 2147483647) by reflexivity.
  unfold pkt_hexdumpc_process. rewrite Hrun, Hinfo. cbn [snd].
  destruct fuel as [| fuel]; [reflexivity |].
  rewrite (hexdumpc_loop_packet _ a priv _ p0); try done.
  - rewrite Hc0. replace (Z.max 0 (j - 1) + 1) with j by lia.
    apply (hexdumpc_loop_stuck a _ pj j Hj Hmax Hpj Hcj _ _
             (set_pkt_num (to_u32 (pkt_num priv + 1)) priv)).
    cbn [dumped dw_blocks]. apply lookup_insert_eq.
  - change (to_u32 0) with 0. lia.
  - lia.
Qed.

Lemma hexdumpc_never_returns_witness :
  let m := DumpSample.with_batch (DumpSample.batch_of_two DumpSample.hdr0 []) in
  m.2 = Running DumpSample.ready_world
  ∧ (pkt_hexdumpc_process 1000 0 m).2.2 = OutOfFuel.
Proof.
  intros m. split; [reflexivity |].
  apply (hexdumpc_never_returns 0 m DumpSample.ready_world 8192
           {| ndo_tstamp_precision := 1; ndo_if_printer := 1001; pkt_num := 0 |}
           (build_descriptor DumpSample.hdr0 [])
           (build_descriptor DumpSample.hdr0 []) 1);
    try reflexivity.
  - vm_compute. split; [discriminate | reflexivity].
  - vm_compute. discriminate.
Defined.

(** ** [main] *)

Section MainProperties.

Context {E : Type}.
Context (stage_at : stage_ref → pkt_pipeline_stage E).
Context (codes : status_codes).
Context (pktdump_print_pipeline : addr → process_state E → outcome E Z).
Context (open_result : string → handle * pcap_t + string).

Lemma main_after_options_status (pps : option addr) (st st' : process_state E)
    (status : option Z) :
  main_after_options stage_at pps st = Returns status st' →
  (status = None ∧ pps = None ∧ st' = st) ∨ status = Some 1.
Proof.
  unfold main_after_options. destruct pps as [p |].
  - destruct (pktdump_runpipeline stage_at p st) as [r st1 |];
      cbn [obind]; [| done].
    destruct (pktdump_finish (Some p) st1) as [ret st2 |] eqn:Hfin;
      cbn [obind]; [| done].
    intros Heq. injection Heq as <- _.
    right. by rewrite (finish_returns_1 _ _ _ _ Hfin).
  - intros Heq. injection Heq as <- <-. by left.
Qed.

Lemma main_options_status (opts : list (Z * string)) :
  ∀ mallocs pps ebuf err st status err' st',
    main_options stage_at codes pktdump_print_pipeline open_result
      opts mallocs pps ebuf err st = Exits status err' st' →
    (status = None ∧ pps = None ∧ opts = [] ∧ err' = err ∧ st' = st)
    ∨ named_status codes status.
Proof.
  induction opts as [| [op optarg] opts IH];
    intros mallocs pps ebuf err st status err' st' Hrun;
    cbn [main_options] in Hrun.
  - destruct (main_after_options stage_at pps st) as [s st1 |] eqn:Hafter;
      [| done].
    injection Hrun as <- <- <-.
    destruct (main_after_options_status _ _ _ _ Hafter) as [(-> & -> & ->) | ->];
      [by left | right; by left].
  - destruct (op =? OPTION_VERSION).
    { injection Hrun as <- _ _. right. right. by left. }
    destruct (op =? OPTION_INPUTPCAP).
    { destruct (pktdump_inputsource _ open_result optarg ebuf st)
        as [[[p |] ebuf'] st1 |]; [| | done].
      - apply IH in Hrun as [(_ & Hnone & _) | Hnamed]; [done | by right].
      - injection Hrun as <- _ _. right. do 3 right. by left. }
    destruct (op =? OPTION_PRINT).
    { destruct pps as [p |].
      - destruct (pktdump_print_pipeline p st) as [r st1 |]; [| done].
        destruct (r =? 0).
        + apply IH in Hrun as [(_ & Hnone & _) | Hnamed]; [done | by right].
        + injection Hrun as <- _ _. right. by do 4 right.
      - injection Hrun as <- _ _. right. by do 4 right. }
    injection Hrun as <- _ _. right. do 2 right. by left.
Qed.

(** An exit with [S_SUCCESS] that none of the other exits could have given
    comes from a version option. *)
Lemma main_options_success (opts : list (Z * string)) :
  S_SUCCESS codes ≠ 1 →
  S_SUCCESS codes ≠ S_ERR_HOST_PROGRAM codes →
  S_SUCCESS codes ≠ S_ERR_ND_OPEN_FILE codes →
  S_SUCCESS codes ≠ S_ERR_PD_NO_INPUT codes →
  ∀ mallocs pps ebuf err st err' st',
    main_options stage_at codes pktdump_print_pipeline open_result
      opts mallocs pps ebuf err st = Exits (Some (S_SUCCESS codes)) err' st' →
    OPTION_VERSION ∈ opts.*1.
Proof.
  intros H1 Hhost Hopen Hinput.
  induction opts as [| [op optarg] opts IH];
    intros mallocs pps ebuf err st err' st' Hrun;
    cbn [main_options] in Hrun.
  - destruct (main_after_options stage_at pps st) as [s st1 |] eqn:Hafter;
      [| done].
    injection Hrun as -> _ _.
    destruct (main_after_options_status _ _ _ _ Hafter) as [(? & _) | ?];
      congruence.
  - destruct (Z.eqb_spec op OPTION_VERSION) as [-> | _]; [simpl; by left |].
    assert (Hrec : ∀ mallocs pps ebuf err st,
              main_options stage_at codes pktdump_print_pipeline open_result
                opts mallocs pps ebuf err st
              = Exits (Some (S_SUCCESS codes)) err' st' →
              OPTION_VERSION ∈ ((op, optarg) :: opts).*1).
    { intros ? ? ? ? ? Hrec. simpl. right. by apply IH in Hrec. }
    destruct (op =? OPTION_INPUTPCAP).
    { destruct (pktdump_inputsource _ open_result optarg ebuf st)
        as [[[p |] ebuf'] st1 |]; [by apply Hrec in Hrun | congruence | done]. }
    destruct (op =? OPTION_PRINT); [| congruence].
    destruct pps as [p |]; [| congruence].
    destruct (pktdump_print_pipeline p st) as [r st1 |]; [| done].
    destruct (r =? 0); [by apply Hrec in Hrun | congruence].
Qed.

End MainProperties.

Section EmptyPipeline.

Context {E : Type}.
Context (stage_at : stage_ref → pkt_pipeline_stage E).

(** With no stage registered a dispatch calls nothing and leaves the
    stages' state and the stage count alone. *)
Lemma dispatch_frames_empty (fs : list frame) :
  ∀ m : machine E,
    pkt_stage_next m.1 <= 0 →
    (dispatch_frames stage_at fs m).1 = replicate (length fs) []
    ∧ (dispatch_frames stage_at fs m).2.2 = m.2
    ∧ pkt_stage_next (dispatch_frames stage_at fs m).2.1 = pkt_stage_next m.1.
Proof.
  induction fs as [| f fs IH]; intros m Hnone; [done |].
  rewrite dispatch_frames_cons, process_one_run.
  rewrite run_stages_none by exact Hnone. cbn [fst snd length replicate].
  destruct (IH (set_master_list (build_batch (fr_hdr f) (fr_bytes f)) m.1, m.2))
    as (Hlogs & Hext & Hnext); [exact Hnone |].
  rewrite Hlogs, Hext, Hnext. done.
Qed.

End EmptyPipeline.

(** X18: whatever the command line, [main] exits with 1, the value of
    [pktdump_finish], or with one of [S_SUCCESS], [S_ERR_HOST_PROGRAM],
    [S_ERR_ND_OPEN_FILE] and [S_ERR_PD_NO_INPUT]; the one exception is a
    command line without options, for which the status is the unassigned
    [ret], nothing is written and the state is untouched. *)
Theorem main_exit_status {E : Type}
    (stage_at : stage_ref → pkt_pipeline_stage E) (codes : status_codes)
    (pktdump_print_pipeline : addr → process_state E → outcome E Z)
    (open_result : string → handle * pcap_t + string)
    (misaligned : option string) (opts : list (Z * string))
    (mallocs : list (option addr)) (ebuf : string) (st : process_state E)
    (status : option Z) (err : list message) (st' : process_state E) :
  main stage_at codes pktdump_print_pipeline open_result
    misaligned opts mallocs ebuf st = Exits status err st' →
  (status = None ∧ misaligned = None ∧ opts = [] ∧ err = [] ∧ st' = st)
  ∨ named_status codes status.
Proof.
  unfold main. destruct misaligned as [msg |].
  - intros Heq. injection Heq as <- _ _. right. right. right. by left.
  - intros Hrun. apply main_options_status in Hrun
      as [(-> & _ & -> & -> & ->) | Hnamed]; [by left | by right].
Qed.

Lemma main_exit_status_witness :
  MainSample.run [(OPTION_PRINT, ""%string)]
  = Exits (Some 20) [NoInputSource] Sample.boot
  ∧ named_status MainSample.codes (Some 20).
Proof.
  split; [reflexivity |].
  destruct (main_exit_status Sample.stage_at MainSample.codes
              MainSample.print_pipeline Sample.open_capture3 None
              [(OPTION_PRINT, ""%string)] [Some 4096] "" Sample.boot
              (Some 20) [NoInputSource] Sample.boot eq_refl)
    as [(Hnone & _) | Hnamed]; [discriminate Hnone | exact Hnamed].
Defined.

(** X19: when [S_SUCCESS] differs from 1 and from the three error
    statuses, [main] exits with [S_SUCCESS] only for a command line that
    has the version option: a run that read a capture to its end never
    reports success. *)
Theorem main_success_is_version {E : Type}
    (stage_at : stage_ref → pkt_pipeline_stage E) (codes : status_codes)
    (pktdump_print_pipeline : addr → process_state E → outcome E Z)
    (open_result : string → handle * pcap_t + string)
    (misaligned : option string) (opts : list (Z * string))
    (mallocs : list (option addr)) (ebuf : string) (st : process_state E)
    (err : list message) (st' : process_state E) :
  S_SUCCESS codes ≠ 1 →
  S_SUCCESS codes ≠ S_ERR_HOST_PROGRAM codes →
  S_SUCCESS codes ≠ S_ERR_ND_OPEN_FILE codes →
  S_SUCCESS codes ≠ S_ERR_PD_NO_INPUT codes →
  main stage_at codes pktdump_print_pipeline open_result
    misaligned opts mallocs ebuf st = Exits (Some (S_SUCCESS codes)) err st' →
  OPTION_VERSION ∈ opts.*1.
Proof.
  intros H1 Hhost Hopen Hinput. unfold main. destruct misaligned as [msg |].
  - intros Heq. injection Heq as Heq _ _. congruence.
  - by apply main_options_success.
Qed.

Lemma main_success_is_version_witness :
  MainSample.run [(OPTION_INPUTPCAP, "three.pcap"%string);
                  (OPTION_VERSION, ""%string)]
  = Exits (Some 0) [VersionText] Sample.opened
  ∧ OPTION_VERSION ∈ [OPTION_INPUTPCAP; OPTION_VERSION].
Proof.
  split; [reflexivity |].
  apply (main_success_is_version Sample.stage_at MainSample.codes
           MainSample.print_pipeline Sample.open_capture3 None
           [(OPTION_INPUTPCAP, "three.pcap"%string); (OPTION_VERSION, ""%string)]
           [Some 4096] "" Sample.boot [VersionText] Sample.opened);
    try discriminate.
  reflexivity.
Defined.

(** X20: a command line with one input option and nothing else: the file
    is opened and read to its end, no stage is ever called since none is
    registered, and [main] exits with status 1 having written nothing.
    The heap and the stages' state are as before; the capture handle stays
    behind, open and drained. *)
Theorem main_input_only {E : Type}
    (stage_at : stage_ref → pkt_pipeline_stage E) (codes : status_codes)
    (pktdump_print_pipeline : addr → process_state E → outcome E Z)
    (open_result : string → handle * pcap_t + string)
    (file ebuf : string) (p : addr) (rest : list (option addr))
    (hd : handle) (cap : pcap_t) (st : process_state E) :
  st_heap st !! p = None →
  open_result file = inl (hd, cap) →
  ∃ st',
    main stage_at codes pktdump_print_pipeline open_result
      None [(OPTION_INPUTPCAP, file)] (Some p :: rest) ebuf st
    = Exits (Some 1) [] st'
    ∧ st_heap st' = st_heap st
    ∧ st_ext st' = st_ext st
    ∧ st_pcap st'
      = <[hd := {| pcap_pending := []; pcap_end := pcap_end cap;
                   pcap_linktype := pcap_linktype cap |}]> (st_pcap st).
Proof.
  intros Hfresh Hopen.
  unfold main. cbn [main_options].
  change (OPTION_INPUTPCAP =? OPTION_VERSION) with false.
  change (OPTION_INPUTPCAP =? OPTION_INPUTPCAP) with true. cbv match.
  unfold pktdump_inputsource. rewrite Hopen.
  unfold main_after_options, pktdump_runpipeline.
  cbn [st_heap st_pcap st_ext set_heap]. rewrite !lookup_insert_eq.
  cbn [ps_pcap_reader mbind option_bind]. rewrite lookup_insert_eq.
  cbn [fmap option_fmap option_map].
  set (m0 := (set_datalink (pcap_linktype cap) zero_pipeline, st_ext st)).
  destruct (dispatch_frames_empty stage_at (pcap_pending cap) m0)
    as (_ & Hext & _); [done |].
  unfold pcap_dispatch. cbn [fst snd ps_pipeline ps_name ps_pcap_reader].
  fold m0.
  destruct (dispatch_result cap =? -2); [| destruct (dispatch_result cap =? -1)];
    (cbn [obind]; unfold pktdump_finish, free;
     cbn [st_heap st_pcap st_ext set_heap]; rewrite lookup_insert_eq;
     cbn [obind];
     eexists; split; [reflexivity |];
     cbn [st_heap st_pcap st_ext set_heap];
     rewrite !delete_insert_eq, delete_id by done;
     rewrite insert_insert_eq;
     split; [done |]; split; [exact Hext | done]).
Qed.

Lemma main_input_only_witness :
  st_heap Sample.boot !! 4096 = None
  ∧ Sample.open_capture3 "three.pcap" = inl (7, Sample.capture3)
  ∧ ∃ st', MainSample.run [(OPTION_INPUTPCAP, "three.pcap"%string)]
           = Exits (Some 1) [] st'
           ∧ st_heap st' = st_heap Sample.boot.
Proof.
  split; [reflexivity |]. split; [reflexivity |].
  destruct (main_input_only Sample.stage_at MainSample.codes
              MainSample.print_pipeline Sample.open_capture3
              "three.pcap" "" 4096 [] 7 Sample.capture3 Sample.boot
              eq_refl eq_refl) as (st' & Hrun & Hheap & _).
  exists st'. split; [exact Hrun | exact Hheap].
Defined.

(** ** What a stage error leaves behind *)

Section NextBatch.

Context {E : Type}.
Context (stage_at : stage_ref → pkt_pipeline_stage E).

Lemma dispatch_frames_registry (fs : list frame) :
  processes_behave stage_at →
  ∀ m : machine E, registry (dispatch_frames stage_at fs m).2.1 = registry m.1.
Proof.
  intros Hok. induction fs as [| f fs IH]; intros m; [done |].
  rewrite dispatch_frames_cons. cbn [snd]. rewrite IH, process_one_run.
  by rewrite run_stages_registry.
Qed.

(** A dispatch cycle is the described walk, over the stages that were
    registered when the machine [m'] was reached. *)
Lemma process_one_described (h : pcap_pkthdr) (bytes : list byte)
    (m m' : machine E) :
  processes_behave stage_at →
  registry m.1 = registry m'.1 →
  pktdump_process_one stage_at h bytes m
  = run_in_order (registered stage_at m'.1)
      (set_master_list (build_batch h bytes) m.1, m.2).
Proof.
  intros Hok Hreg. rewrite process_one_run.
  rewrite run_stages_described; [| done | vm_compute; discriminate].
  unfold registered. f_equal. by apply registered_from_registry.
Qed.

End NextBatch.

(** C5: a frame is dispatched as if no frame had come before it, whatever
    codes the stages returned for the earlier ones.  Every frame of the
    sequence gets its cycle; the cycle for [f] is the walk from index 0 over
    the stages registered at the start of the dispatch, on a batch of one
    entry built from [f] alone and on the state the invoked stages left,
    to which the engine has added nothing; it leaves the registry as it
    was, so the same holds for the frames after [f]; and when stage 0 was
    registered with a process operation it is the first stage called. *)
Theorem batches_are_independent {E : Type}
    (stage_at : stage_ref → pkt_pipeline_stage E)
    (fs1 : list frame) (f : frame) (fs2 : list frame) (m : machine E) :
  processes_behave stage_at →
  let before := dispatch_frames stage_at fs1 m in
  let m0 := (set_master_list
               {| pkt_list := [Some (build_descriptor (fr_hdr f) (fr_bytes f))];
                  pkt_extent := 1 |} before.2.1,
             before.2.2) in
  let this := pktdump_process_one stage_at (fr_hdr f) (fr_bytes f) before.2 in
  let rest := dispatch_frames stage_at fs2 this.2 in
  let all := dispatch_frames stage_at (fs1 ++ f :: fs2) m in
  all = (before.1 ++ this.1 :: rest.1, rest.2)
  ∧ length all.1 = length (fs1 ++ f :: fs2)
  ∧ this = run_in_order (registered stage_at m.1) m0
  ∧ registry this.2.1 = registry m.1
  ∧ (∀ process, 0 < pkt_stage_next m.1 →
       process_at stage_at m.1 0 = Some process →
       this.1 !! 0%nat = Some (0, (process 0 m0).1)).
Proof.
  intros Hok before m0 this rest all.
  assert (Hbefore : registry before.2.1 = registry m.1)
    by by apply dispatch_frames_registry.
  assert (Hthis : this = run_stages stage_at (Z.to_nat PKT_PIPELINE_MAX) 0 m0)
    by apply process_one_run.
  split.
  { unfold all. rewrite dispatch_frames_app, dispatch_frames_cons.
    reflexivity. }
  split; [apply dispatch_frames_length |].
  split; [by apply process_one_described |].
  split.
  { rewrite Hthis, run_stages_registry by done. exact Hbefore. }
  intros process Hn Hp. rewrite Hthis.
  change (Z.to_nat PKT_PIPELINE_MAX) with (S 7).
  apply (run_stages_first stage_at).
  - change (pkt_stage_next m0.1) with (pkt_stage_next before.2.1).
    by rewrite (registry_next _ _ Hbefore).
  - reflexivity.
  - rewrite <- Hp. apply process_at_registry. exact Hbefore.
Qed.

Lemma batches_are_independent_witness :
  let m := (add_all Sample.stage_at [0; 1; 2; 0]%nat Sample.start).2 in
  processes_behave Sample.stage_at
  ∧ (pktdump_process_one Sample.stage_at Sample.hdr64 Sample.bytes64 m).1
    = [(0, 0); (2, -1)]
  ∧ (pktdump_process_one Sample.stage_at Sample.hdr64 Sample.bytes64
       (dispatch_frames Sample.stage_at [Sample.frame64] m).2).1
    = [(0, 0); (2, -1)].
Proof.
  intros m. split; [apply sample_processes_behave |].
  split; [vm_compute; reflexivity |].
  destruct (batches_are_independent Sample.stage_at [Sample.frame64]
              Sample.frame64 [] m sample_processes_behave)
    as (_ & _ & Hthis & _).
  cbn [fr_hdr fr_bytes Sample.frame64] in Hthis.
  rewrite Hthis. vm_compute. reflexivity.
Defined.

(** ** Entries left in the batch *)

Lemma entry_within_contract_refl (x : option pkt_pipeline_hdr) :
  entry_within_contract x x.
Proof. destruct x as [d |]; [| done]. exists d. by repeat split. Qed.


Section Contract.

Context {E : Type}.
Context (stage_at : stage_ref → pkt_pipeline_stage E).


End Contract.




(** The hex-dump stage keeps to the contract: it leaves the batch as it
    is. *)
Lemma hexdumpc_follows_contract (get_if_printer : Z → Z) (fuel : nat) :
  stages_follow_contract (dumpc_stage_at get_if_printer fuel).
Proof.
  intros ps process Hp i m. injection Hp as <-.
  unfold pkt_hexdumpc_process.
  destruct m.2; cbn [snd fst];
    apply Forall_Forall2_diag, Forall_true, entry_within_contract_refl.
Qed.
